(** * Eclipse-pair search: a shallow embedding of the Python scripts

    The scripts of the repository (find_eclipse_pairs.py,
    find_eclipse_pairs_grid.py, find_pairs_fixed.py, find_final.py) are
    embedded as Rocq functions.

    Conventions of the embedding:
    - Python floats and ints are exact rationals ([Q]); Julian days,
      latitudes, longitudes, magnitudes and return flags are all numbers.
      Sums, differences and remainders are exact, with one exception: the
      cursor update [jd = next + 1] of the enumerator loops, on which their
      termination rests, is also given in double precision ([double_add],
      [while_loop_in]).
    - A Python expression that can raise is a computation in the [Py] monad;
      [try: ... except: ...] is [try_except].
    - The ephemeris library (swisseph) is not part of the repository: it is
      the record [Oracle], whose functions may return any Python value or
      raise.
    - [while] loops take a fuel argument; [None] means that the fuel ran out
      before the loop left, never that the loop ended.
    - Console output is not modelled. *)

From Stdlib Require Import List Bool Arith ZArith QArith Qabs Qround Qpower.
From Stdlib Require Import Lia Lqa.
From Stdlib Require Import Sorted Permutation.
From Stdlib Require String.
Import String.StringSyntax.
Delimit Scope string_scope with string.
Import ListNotations.
Open Scope Q_scope.

Set Implicit Arguments.

(** ** Python values and exceptions *)

(** The values the ephemeris library hands back: [None], a number, or a tuple
    (of numbers or of further tuples). *)
#[warnings="-register-all"]
Inductive pyval : Type :=
| PNone
| PNum (q : Q)
| PTuple (items : list pyval).

(** A computation either yields a value or raises an exception. *)
Inductive Py (A : Type) : Type :=
| Ok (a : A)
| Raise.
Arguments Raise {A}.

Definition bind {A B : Type} (m : Py A) (k : A -> Py B) : Py B :=
  match m with
  | Ok a => k a
  | Raise => Raise
  end.

Notation "x <- e ;; k" := (bind e (fun x => k))
  (at level 61, e at next level, right associativity).

(** [try: body  except: handler] *)
Definition try_except {A : Type} (body handler : Py A) : Py A :=
  match body with
  | Ok a => Ok a
  | Raise => handler
  end.

(** Strict comparison of rationals as a boolean. *)
Definition Qlt_b (x y : Q) : bool := negb (Qle_bool y x).

(** Truth value of an object in a condition: [None], zero and the empty tuple
    are false. *)
Definition truthy (v : pyval) : bool :=
  match v with
  | PNone => false
  | PNum q => negb (Qeq_bool q 0)
  | PTuple items => negb (Nat.eqb (length items) 0)
  end.

(** [v[i]] for a literal index [i >= 0]: IndexError past the end, TypeError
    on a value that is not a tuple. *)
Definition subscript (v : pyval) (i : nat) : Py pyval :=
  match v with
  | PTuple items =>
      match nth_error items i with
      | Some x => Ok x
      | None => Raise
      end
  | _ => Raise
  end.

(** [len(v)]: TypeError on [None] and on numbers. *)
Definition py_len (v : pyval) : Py nat :=
  match v with
  | PTuple items => Ok (length items)
  | _ => Raise
  end.

(** A value used as an operand of [<], [>], [>=], [+], [-] against a number:
    TypeError unless it is a number itself. *)
Definition py_float (v : pyval) : Py Q :=
  match v with
  | PNum q => Ok q
  | _ => Raise
  end.

(** [isinstance(v, (int, float))] *)
Definition is_number (v : pyval) : bool :=
  match v with
  | PNum _ => true
  | _ => false
  end.

(** [v[:n]] *)
Definition slice_to (v : pyval) (n : nat) : Py pyval :=
  match v with
  | PTuple items => Ok (PTuple (firstn n items))
  | _ => Raise
  end.

(** [a, b = v]: ValueError unless [v] has exactly two items. *)
Definition unpack2 (v : pyval) : Py (pyval * pyval) :=
  match v with
  | PTuple [a; b] => Ok (a, b)
  | _ => Raise
  end.

(** [x % m] for a positive modulus, as an exact remainder.  (On doubles the
    remainder is rounded: it lies between 0 and [m], and can be [m]
    itself.) *)
Definition py_mod (x m : Q) : Q := x - m * inject_Z (Qfloor (x / m)).

(** ** The ephemeris oracle *)

Inductive body : Type := SUN | MOON | SE_ECL_NUT.

Inductive kind : Type := solar | lunar.

(** The functions of the swisseph module the scripts call.  The two position
    arguments of [sol_eclipse_how] and [lun_eclipse_how] are given in the
    order in which each script passes them (the scripts disagree on it, and
    find_final.py passes them in one list, [[lon, lat, 0]], where the others
    pass two numbers); the constant flag argument is left out.  What the
    library answers to one way of calling says nothing on what it answers
    to another: each script is to be read with an oracle of its own.
    [revjul] is calendar arithmetic and is taken as total. *)
Record Oracle : Type := {
  sol_eclipse_when_glob : Q -> Py pyval;
  lun_eclipse_when : Q -> Py pyval;
  sol_eclipse_how : Q -> Q -> Q -> Py pyval;
  lun_eclipse_how : Q -> Q -> Q -> Py pyval;
  calc_ut : Q -> body -> Py pyval;
  sidtime : Q -> Py pyval;
  revjul : Q -> pyval
}.

(** The global search of the given kind. *)
Definition eclipse_when (o : Oracle) (k : kind) : Q -> Py pyval :=
  match k with
  | solar => sol_eclipse_when_glob o
  | lunar => lun_eclipse_when o
  end.

(** An entry of the list [eclipses]: [('solar', jd)] or [('lunar', jd)]. *)
Definition event : Type := (kind * Q)%type.

(** ** The enumerator loops *)

(** [while jd < jd_end: ...] where one run of the body either appends the
    time it found and moves the cursor one day past it ([Some t]), or breaks
    ([None]), or raises. *)
Fixpoint while_loop (step : Q -> Py (option Q)) (k : kind) (jd_end : Q)
    (fuel : nat) (jd : Q) (eclipses : list event) : option (Py (list event)) :=
  match fuel with
  | O => None
  | S fuel' =>
      if Qlt_b jd jd_end then
        match step jd with
        | Raise => Some Raise
        | Ok None => Some (Ok eclipses)
        | Ok (Some t) =>
            while_loop step k jd_end fuel' (t + 1) (eclipses ++ [(k, t)])
        end
      else Some (Ok eclipses)
  end.

(** [eclipses.sort(key=lambda x: x[1])]: a stable sort by time. *)
Fixpoint insert_by_time (e : event) (l : list event) : list event :=
  match l with
  | [] => [e]
  | x :: xs =>
      if Qle_bool (snd e) (snd x) then e :: l else x :: insert_by_time e xs
  end.

Fixpoint sort_by_time (l : list event) : list event :=
  match l with
  | [] => []
  | e :: es => insert_by_time e (sort_by_time es)
  end.

(** Phase 1 of every script: the solar loop, the lunar loop appending to the
    same list, then the sort. *)
Definition collect_eclipses
    (enumerate : kind -> nat -> Q -> list event -> option (Py (list event)))
    (fuel : nat) (jd_start : Q) : option (Py (list event)) :=
  match enumerate solar fuel jd_start [] with
  | None => None
  | Some Raise => Some Raise
  | Some (Ok eclipses) =>
      match enumerate lunar fuel jd_start eclipses with
      | None => None
      | Some Raise => Some Raise
      | Some (Ok eclipses') => Some (Ok (sort_by_time eclipses'))
      end
  end.

(** ** The pair finder *)

(** [eclipses[i]] *)
Definition item {A : Type} (l : list A) (i : nat) : Py A :=
  match nth_error l i with
  | Some x => Ok x
  | None => Raise
  end.

Section PairSearch.

(** The type of a grid location, the visibility test of one event at one
    location, whether the location loop breaks at the first location that
    sees both events, the calendar conversion and the gap threshold. *)
Variable L : Type.
Variable visible : kind -> Q -> L -> Py bool.
Variable first_match : bool.
Variable julian_to_date : Q -> pyval.
Variable max_gap_days : Q.

(** The dictionary appended to the list of found pairs
    (find_eclipse_pairs_grid.py and find_pairs_fixed.py leave the two
    Julian days out of it). *)
Record Pair : Type := {
  location : L;
  type1 : kind;
  date1 : pyval;
  jd1 : Q;
  type2 : kind;
  date2 : pyval;
  jd2 : Q;
  gap_days : Q
}.

Definition make_pair (loc : L) (e1 e2 : event) : Pair :=
  {| location := loc;
     type1 := fst e1; date1 := julian_to_date (snd e1); jd1 := snd e1;
     type2 := fst e2; date2 := julian_to_date (snd e2); jd2 := snd e2;
     gap_days := snd e2 - snd e1 |}.

(** [for loc in locations: ...] for one surviving pair of events. *)
Fixpoint location_loop (e1 e2 : event) (locs : list L) : Py (list Pair) :=
  match locs with
  | [] => Ok []
  | loc :: rest =>
      visible1 <- visible (fst e1) (snd e1) loc ;;
      visible2 <- visible (fst e2) (snd e2) loc ;;
      if visible1 && visible2 then
        if first_match then Ok [make_pair loc e1 e2]
        else
          found <- location_loop e1 e2 rest ;;
          Ok (make_pair loc e1 e2 :: found)
      else location_loop e1 e2 rest
  end.

(** One index pair that passed the gap test (find_eclipse_pairs.py prints
    "Potential pair found" for it), with what it appended to the list of
    found pairs.  The list of found pairs is the concatenation of these, in
    the order of the iteration. *)
Record Evaluated : Type := {
  first_index : nat;
  second_index : nat;
  found : list Pair
}.

(** [for j in range(i + 1, len(eclipses)): ...] with its [break]. *)
Fixpoint inner_loop (eclipses : list event) (locs : list L) (i : nat)
    (js : list nat) : Py (list Evaluated) :=
  match js with
  | [] => Ok []
  | j :: js' =>
      e1 <- item eclipses i ;;
      e2 <- item eclipses j ;;
      let gap := snd e2 - snd e1 in
      if Qlt_b max_gap_days gap then Ok []
      else
        here <- location_loop e1 e2 locs ;;
        rest <- inner_loop eclipses locs i js' ;;
        Ok ({| first_index := i; second_index := j; found := here |}
              :: rest)
  end.

(** [for i in range(len(eclipses) - 1): ...] *)
Fixpoint outer_loop (eclipses : list event) (locs : list L)
    (indices : list nat) : Py (list Evaluated) :=
  match indices with
  | [] => Ok []
  | i :: indices' =>
      here <- inner_loop eclipses locs i
                (seq (S i) (length eclipses - S i)) ;;
      rest <- outer_loop eclipses locs indices' ;;
      Ok (here ++ rest)
  end.

(** The pair search with the index pairs it evaluated. *)
Definition evaluate_pairs (eclipses : list event) (locs : list L)
  : Py (list Evaluated) :=
  outer_loop eclipses locs (seq 0 (length eclipses - 1)).

(** The list of found pairs. *)
Definition find_pairs (eclipses : list event) (locs : list L)
  : Py (list Pair) :=
  log <- evaluate_pairs eclipses locs ;;
  Ok (flat_map found log).

(** What an entry of the log is expected to hold: two events of the list
    whose gap passed the test, and pairs of these two events at locations
    of the grid. *)
Definition entry_ok (eclipses : list event) (locs : list L)
    (ev : Evaluated) : Prop :=
  exists e1 e2,
    nth_error eclipses (first_index ev) = Some e1 /\
    nth_error eclipses (second_index ev) = Some e2 /\
    snd e2 - snd e1 <= max_gap_days /\
    Forall (fun p => exists loc, In loc locs /\ p = make_pair loc e1 e2)
           (found ev).

End PairSearch.

(** The Moon altitude an answer of [lun_eclipse_how] reports: [attr[1][5]]. *)
Definition moon_altitude (attr : pyval) : option Q :=
  match attr with
  | PTuple (_ :: PTuple (_ :: _ :: _ :: _ :: _ :: PNum alt :: _) :: _) =>
      Some alt
  | _ => None
  end.

(** The time an answer of a global search reports: [result[1][0]]. *)
Definition max_eclipse_time (result : pyval) : option Q :=
  match result with
  | PTuple (_ :: PTuple (PNum t :: _) :: _) => Some t
  | _ => None
  end.

(** The flag an answer reports: [result[0]]. *)
Definition return_flag (result : pyval) : option Q :=
  match result with
  | PTuple (PNum flag :: _) => Some flag
  | _ => None
  end.

(** A search is monotonic when the time it reports is never before the time
    it was asked about. *)
Definition monotonic (when : Q -> Py pyval) : Prop :=
  forall jd result t,
    when jd = Ok result -> max_eclipse_time result = Some t -> jd <= t.

(** Replace attribute [i] of an attribute array by the number [x]. *)
Fixpoint set_attr (i : nat) (x : Q) (attrs : list pyval) : list pyval :=
  match attrs, i with
  | [], _ => []
  | _ :: rest, O => PNum x :: rest
  | a :: rest, S i' => a :: set_attr i' x rest
  end.

(** ** find_eclipse_pairs.py *)

Module Pairs.

(** [find_next_solar_eclipse] and [find_next_lunar_eclipse]: one body over
    the two global searches. *)
Definition find_next_eclipse (when : Q -> Py pyval) (jd_start : Q)
  : Py pyval :=
  result <- when jd_start ;;
  r0 <- subscript result 0 ;;
  flag <- py_float r0 ;;
  if Qle_bool 0 flag then
    r1 <- subscript result 1 ;;
    subscript r1 0
  else Ok PNone.

Definition find_next_solar_eclipse (o : Oracle) : Q -> Py pyval :=
  find_next_eclipse (sol_eclipse_when_glob o).

Definition find_next_lunar_eclipse (o : Oracle) : Q -> Py pyval :=
  find_next_eclipse (lun_eclipse_when o).

(** The body of the two while loops:
    [next = find_next(jd); if next and next < jd_end: ... else: break]. *)
Definition step (when : Q -> Py pyval) (jd_end jd : Q) : Py (option Q) :=
  next <- find_next_eclipse when jd ;;
  if truthy next then
    t <- py_float next ;;
    if Qlt_b t jd_end then Ok (Some t) else Ok None
  else Ok None.

Definition enumerate (o : Oracle) (jd_end : Q) (k : kind)
  : nat -> Q -> list event -> option (Py (list event)) :=
  while_loop (step (eclipse_when o k) jd_end) k jd_end.

(** The statements inside [try] of [check_solar_eclipse_visibility]:
    [Some r] when [return r] was reached, [None] when control falls out of
    the [if]. *)
Definition solar_attempt (o : Oracle) (jd lat lon : Q)
  : Py (option (bool * Q * Q)) :=
  attr <- sol_eclipse_how o jd lat lon ;;
  a0 <- subscript attr 0 ;;
  flag <- py_float a0 ;;
  if Qle_bool 0 flag then
    a1 <- subscript attr 1 ;;
    n <- py_len a1 ;;
    fraction_covered <-
      (if (0 <? n)%nat then subscript a1 0 else Ok (PNum 0)) ;;
    magnitude <-
      (if (4 <? n)%nat then subscript a1 4 else Ok fraction_covered) ;;
    m <- py_float magnitude ;;
    let is_visible := Qlt_b (1 # 1000) m in
    Ok (Some (is_visible, m, flag))
  else Ok None.

(** Returns (visible, magnitude, type). *)
Definition check_solar_eclipse_visibility (o : Oracle) (jd lat lon : Q)
  : Py (bool * Q * Q) :=
  returned <- try_except (solar_attempt o jd lat lon) (Ok None) ;;
  match returned with
  | Some r => Ok r
  | None => Ok (false, 0, 0)
  end.

(** [r[0] if isinstance(r[0], (int, float)) else r[1][0]] *)
Definition lon_of (r : pyval) : Py pyval :=
  r0 <- subscript r 0 ;;
  if is_number r0 then subscript r 0
  else (r1 <- subscript r 1 ;; subscript r1 0).

(** [0 if isinstance(r[0], (int, float)) else r[1][1]] *)
Definition lat_of (r : pyval) : Py pyval :=
  r0 <- subscript r 0 ;;
  if is_number r0 then Ok (PNum 0)
  else (r1 <- subscript r 1 ;; subscript r1 1).

(** The statements inside [try] of [check_lunar_eclipse_visibility]. *)
Definition lunar_attempt (o : Oracle) (jd lat lon : Q) : Py bool :=
  sun_result <- calc_ut o jd SUN ;;
  moon_result <- calc_ut o jd MOON ;;
  sun_lon <- lon_of sun_result ;;
  sun_lat <- lat_of sun_result ;;
  moon_lon <- lon_of moon_result ;;
  moon_lat <- lat_of moon_result ;;
  ecl_nut <- calc_ut o jd SE_ECL_NUT ;;
  e1 <- subscript ecl_nut 1 ;;
  e12 <- slice_to e1 2 ;;
  eps_nutlo <- unpack2 e12 ;;
  sid <- sidtime o jd ;;
  s <- py_float sid ;;
  let armc := s * 15 + lon in
  sun_ra <- py_float sun_lon ;;
  let hour_angle := py_mod (armc - sun_ra) 360 in
  let hour_angle :=
    if Qlt_b 180 hour_angle then hour_angle - 360 else hour_angle in
  let is_night := Qlt_b 60 (Qabs hour_angle) in
  Ok is_night.

Definition check_lunar_eclipse_visibility (o : Oracle) (jd lat lon : Q)
  : Py bool :=
  try_except (lunar_attempt o jd lat lon) (Ok false).

(** A test location: (name, latitude, longitude). *)
Definition Loc : Type := (String.string * Q * Q)%type.

(** [visible1] and [visible2] in the location loop. *)
Definition visible (o : Oracle) (k : kind) (jd : Q) (loc : Loc) : Py bool :=
  let '(loc_name, lat, lon) := loc in
  match k with
  | solar =>
      r <- check_solar_eclipse_visibility o jd lat lon ;;
      let '(vis, mag, _) := r in Ok vis
  | lunar => check_lunar_eclipse_visibility o jd lat lon
  end.

(** Phase 2 of [search_eclipses_before_3000bc]. *)
Definition evaluate_pairs (o : Oracle) (max_gap_days : Q)
  : list event -> list Loc -> Py (list (Evaluated Loc)) :=
  evaluate_pairs (visible o) false (revjul o) max_gap_days.

Definition find_pairs (o : Oracle) (max_gap_days : Q)
  : list event -> list Loc -> Py (list (Pair Loc)) :=
  find_pairs (visible o) false (revjul o) max_gap_days.

(** [search_eclipses_before_3000bc], from the two Julian days on. *)
Definition search_eclipses (o : Oracle) (test_locations : list Loc)
    (jd_start jd_end max_gap_days : Q) (fuel : nat)
  : option (Py (list (Pair Loc))) :=
  match collect_eclipses (enumerate o jd_end) fuel jd_start with
  | None => None
  | Some Raise => Some Raise
  | Some (Ok eclipses) =>
      Some (find_pairs o max_gap_days eclipses test_locations)
  end.

End Pairs.

(** ** find_eclipse_pairs_grid.py *)

Module Grid.

(** The enumerator loops are those of find_eclipse_pairs.py. *)
Definition enumerate := Pairs.enumerate.

Definition solar_attempt (o : Oracle) (jd lat lon : Q)
  : Py (option (bool * Q)) :=
  attr <- sol_eclipse_how o jd lat lon ;;
  a0 <- subscript attr 0 ;;
  flag <- py_float a0 ;;
  if Qle_bool 0 flag then
    a1 <- subscript attr 1 ;;
    n <- py_len a1 ;;
    fraction_covered <-
      (if (0 <? n)%nat then subscript a1 0 else Ok (PNum 0)) ;;
    magnitude <-
      (if (4 <? n)%nat then subscript a1 4 else Ok fraction_covered) ;;
    m <- py_float magnitude ;;
    let is_visible := Qlt_b (1 # 1000) m in
    Ok (Some (is_visible, m))
  else Ok None.

(** Returns (visible, magnitude). *)
Definition check_solar_eclipse_visibility (o : Oracle) (jd lat lon : Q)
  : Py (bool * Q) :=
  returned <- try_except (solar_attempt o jd lat lon) (Ok None) ;;
  match returned with
  | Some r => Ok r
  | None => Ok (false, 0)
  end.

Definition lunar_attempt (o : Oracle) (jd lat lon : Q) : Py bool :=
  sun_result <- calc_ut o jd SUN ;;
  sid <- sidtime o jd ;;
  s <- py_float sid ;;
  let armc := s * 15 + lon in
  s1 <- subscript sun_result 1 ;;
  sun_lon <- subscript s1 0 ;;
  sl <- py_float sun_lon ;;
  let hour_angle := py_mod (armc - sl) 360 in
  let hour_angle :=
    if Qlt_b 180 hour_angle then hour_angle - 360 else hour_angle in
  let is_night := Qlt_b 45 (Qabs hour_angle) in
  Ok is_night.

(** [except: return True]: "default to True to be more permissive". *)
Definition check_lunar_eclipse_visibility (o : Oracle) (jd lat lon : Q)
  : Py bool :=
  try_except (lunar_attempt o jd lat lon) (Ok true).

(** A grid location: (latitude, longitude). *)
Definition Loc : Type := (Q * Q)%type.

Definition visible (o : Oracle) (k : kind) (jd : Q) (loc : Loc) : Py bool :=
  let '(lat, lon) := loc in
  match k with
  | solar =>
      r <- check_solar_eclipse_visibility o jd lat lon ;;
      let '(vis, mag) := r in Ok vis
  | lunar => check_lunar_eclipse_visibility o jd lat lon
  end.

Definition find_pairs (o : Oracle)
  : list event -> list Loc -> Py (list (Pair Loc)) :=
  find_pairs (visible o) false (revjul o) 15.

End Grid.

(** ** find_final.py *)

Module Final.

(** The body of the two while loops:
    [result = when(jd)
     if result[0] > 0 and result[1][0] < jd_end: ... else: break]. *)
Definition step (when : Q -> Py pyval) (jd_end jd : Q) : Py (option Q) :=
  result <- when jd ;;
  r0 <- subscript result 0 ;;
  flag <- py_float r0 ;;
  if Qlt_b 0 flag then
    r1 <- subscript result 1 ;;
    r10 <- subscript r1 0 ;;
    t <- py_float r10 ;;
    if Qlt_b t jd_end then Ok (Some t) else Ok None
  else Ok None.

Definition enumerate (o : Oracle) (jd_end : Q) (k : kind)
  : nat -> Q -> list event -> option (Py (list event)) :=
  while_loop (step (eclipse_when o k) jd_end) k jd_end.

(** The statements inside [try] of a visibility check, starting from
    [vis = False]. *)
Definition attempt (o : Oracle) (k : kind) (jd lon lat : Q) : Py bool :=
  match k with
  | solar =>
      attr <- sol_eclipse_how o jd lon lat ;;
      a0 <- subscript attr 0 ;;
      flag <- py_float a0 ;;
      if Qlt_b 0 flag then
        a1 <- subscript attr 1 ;;
        n <- py_len a1 ;;
        if (0 <? n)%nat then
          a10 <- subscript a1 0 ;;
          fraction <- py_float a10 ;;
          Ok (Qlt_b (1 # 1000) fraction)
        else Ok false
      else Ok false
  | lunar =>
      attr <- lun_eclipse_how o jd lon lat ;;
      a0 <- subscript attr 0 ;;
      flag <- py_float a0 ;;
      if Qlt_b 0 flag then
        a1 <- subscript attr 1 ;;
        n <- py_len a1 ;;
        if (5 <? n)%nat then
          a15 <- subscript a1 5 ;;
          moon_alt <- py_float a15 ;;
          Ok (Qlt_b 0 moon_alt)
        else Ok true
      else Ok false
  end.

(** A grid location: (longitude, latitude). *)
Definition Loc : Type := (Q * Q)%type.

(** [vis = False; try: ... except: pass] *)
Definition visible (o : Oracle) (k : kind) (jd : Q) (loc : Loc) : Py bool :=
  let '(lon, lat) := loc in
  try_except (attempt o k jd lon lat) (Ok false).

Definition evaluate_pairs (o : Oracle)
  : list event -> list Loc -> Py (list (Evaluated Loc)) :=
  evaluate_pairs (visible o) true (revjul o) 15.

Definition find_pairs (o : Oracle)
  : list event -> list Loc -> Py (list (Pair Loc)) :=
  find_pairs (visible o) true (revjul o) 15.

(** The whole script, from the two Julian days on. *)
Definition search_eclipses (o : Oracle) (grid_locs : list Loc)
    (jd_start jd_end : Q) (fuel : nat) : option (Py (list (Pair Loc))) :=
  match collect_eclipses (enumerate o jd_end) fuel jd_start with
  | None => None
  | Some Raise => Some Raise
  | Some (Ok eclipses) => Some (find_pairs o eclipses grid_locs)
  end.

End Final.

(** ** find_pairs_fixed.py *)

Module Fixed.

(** The enumerator loops are those of find_final.py. *)
Definition enumerate := Final.enumerate.

(** The statements inside [try] of the solar check. *)
Definition solar_attempt (o : Oracle) (jd lon lat : Q) : Py bool :=
  attr <- sol_eclipse_how o jd lon lat ;;
  a0 <- subscript attr 0 ;;
  flag <- py_float a0 ;;
  if Qle_bool 0 flag then
    a1 <- subscript attr 1 ;;
    n <- py_len a1 ;;
    if (0 <? n)%nat then
      a10 <- subscript a1 0 ;;
      fraction <- py_float a10 ;;
      Ok (Qlt_b (1 # 1000) fraction)
    else Ok false
  else Ok false.

(** The statements inside [try] of the lunar check:
    [if attr and len(attr) > 1: vis = True]. *)
Definition lunar_attempt (o : Oracle) (jd lon lat : Q) : Py bool :=
  attr <- lun_eclipse_how o jd lon lat ;;
  if truthy attr then
    n <- py_len attr ;;
    if (1 <? n)%nat then Ok true else Ok false
  else Ok false.

(** A grid location: (latitude, longitude). *)
Definition Loc : Type := (Q * Q)%type.

(** Solar: [except: pass].  Lunar: [except: vis = True], "very permissive
    for lunar". *)
Definition visible (o : Oracle) (k : kind) (jd : Q) (loc : Loc) : Py bool :=
  let '(lat, lon) := loc in
  match k with
  | solar => try_except (solar_attempt o jd lon lat) (Ok false)
  | lunar => try_except (lunar_attempt o jd lon lat) (Ok true)
  end.

Definition find_pairs (o : Oracle)
  : list event -> list Loc -> Py (list (Pair Loc)) :=
  find_pairs (visible o) true (revjul o) 15.

End Fixed.

(** ** Sample oracles and inputs *)

(** A global search over a finite table of eclipse times: the first time at
    or after the cursor with a positive flag, else an error flag. *)
Definition search_table (times : list Q) (jd : Q) : Py pyval :=
  match find (fun t => Qle_bool jd t) times with
  | Some t => Ok (PTuple [PNum 4; PTuple [PNum t]])
  | None => Ok (PTuple [PNum (-1); PTuple []])
  end.

(** Local circumstances that do not depend on time or place. *)
Definition fixed_answer (flag : Q) (attrs : list Q) : Q -> Q -> Q -> Py pyval :=
  fun _ _ _ => Ok (PTuple [PNum flag; PTuple (map PNum attrs)]).

Definition sample_oracle : Oracle :=
  {| sol_eclipse_when_glob := search_table [10; 40; 200];
     lun_eclipse_when := search_table [25; 190];
     sol_eclipse_how := fixed_answer 4 [1 # 2; 1; 1 # 2; 0; 1 # 2; 30];
     lun_eclipse_how := fixed_answer 4 [1; 1; 0; 0; 0; 30; 0];
     calc_ut := fun _ _ => Ok (PTuple [PNum 0; PTuple [PNum 0; PNum 0]]);
     sidtime := fun _ => Ok (PNum 12);
     revjul := fun jd => PTuple [PNum jd] |}.

(** The sample oracle with other solar circumstances. *)
Definition with_solar_how (how : Q -> Q -> Q -> Py pyval) : Oracle :=
  {| sol_eclipse_when_glob := sol_eclipse_when_glob sample_oracle;
     lun_eclipse_when := lun_eclipse_when sample_oracle;
     sol_eclipse_how := how;
     lun_eclipse_how := lun_eclipse_how sample_oracle;
     calc_ut := calc_ut sample_oracle;
     sidtime := sidtime sample_oracle;
     revjul := revjul sample_oracle |}.

(** The sample oracle with other lunar circumstances. *)
Definition with_lunar_how (how : Q -> Q -> Q -> Py pyval) : Oracle :=
  {| sol_eclipse_when_glob := sol_eclipse_when_glob sample_oracle;
     lun_eclipse_when := lun_eclipse_when sample_oracle;
     sol_eclipse_how := sol_eclipse_how sample_oracle;
     lun_eclipse_how := how;
     calc_ut := calc_ut sample_oracle;
     sidtime := sidtime sample_oracle;
     revjul := revjul sample_oracle |}.

(** The sample oracle with another solar search. *)
Definition with_solar_when (when : Q -> Py pyval) : Oracle :=
  {| sol_eclipse_when_glob := when;
     lun_eclipse_when := lun_eclipse_when sample_oracle;
     sol_eclipse_how := sol_eclipse_how sample_oracle;
     lun_eclipse_how := lun_eclipse_how sample_oracle;
     calc_ut := calc_ut sample_oracle;
     sidtime := sidtime sample_oracle;
     revjul := revjul sample_oracle |}.

(** An oracle all of whose queries raise. *)
Definition failing_oracle : Oracle :=
  {| sol_eclipse_when_glob := fun _ => Raise;
     lun_eclipse_when := fun _ => Raise;
     sol_eclipse_how := fun _ _ _ => Raise;
     lun_eclipse_how := fun _ _ _ => Raise;
     calc_ut := fun _ _ => Raise;
     sidtime := fun _ => Raise;
     revjul := fun jd => PTuple [PNum jd] |}.

Definition sample_events : list event :=
  [(solar, 10); (lunar, 25); (solar, 40); (lunar, 190); (solar, 200)].

(** A search whose answers always carry the same flag and the same time. *)
Definition constant_search (flag t : Q) : Q -> Py pyval :=
  fun _ => Ok (PTuple [PNum flag; PTuple [PNum t]]).

(** An answer of a global search on which the two acceptance tests
    ([result[0] >= 0] followed by the truth value of the time, and
    [result[0] > 0]) cannot disagree: its flag is not zero and the time it
    reports is not a false value (zero, [None], the empty tuple). *)
Definition decisive (result : pyval) : Prop :=
  (forall flag, return_flag result = Some flag -> ~ flag == 0) /\
  (forall r1 v,
     subscript result 1 = Ok r1 -> subscript r1 0 = Ok v -> truthy v = true).

(** The magnitude [check_solar_eclipse_visibility] reads off an attribute
    array: attribute 4 when there are more than four attributes, else
    attribute 0 (the fraction covered) when there is one, else 0. *)
Definition reported_magnitude (attrs : list pyval) (m : Q) : Prop :=
  ((4 < length attrs)%nat /\ nth_error attrs 4 = Some (PNum m)) \/
  ((0 < length attrs <= 4)%nat /\ nth_error attrs 0 = Some (PNum m)) \/
  (attrs = [] /\ m = 0).

(** A list of events in ascending order of time. *)
Definition time_sorted (eclipses : list event) : Prop :=
  StronglySorted (fun e1 e2 => snd e1 <= snd e2) eclipses.

Definition sample_locations : list Pairs.Loc :=
  [("Babylon (Iraq)"%string, 65 # 2, 222 # 5);
   ("Memphis (Egypt)"%string, 149 # 5, 156 # 5)].

Definition sample_grid : list (Q * Q) := [(0, 0); (15, 30)].

(** ** Notions used to state further properties of the scripts *)


(** What a visibility test says, an exception counting as "not visible". *)
Definition says_visible (r : Py bool) : bool :=
  match r with
  | Ok b => b
  | Raise => false
  end.

(** Both events are seen from the location. *)
Definition both_visible {L : Type} (visible : kind -> Q -> L -> Py bool)
    (e1 e2 : event) (loc : L) : bool :=
  says_visible (visible (fst e1) (snd e1) loc)
  && says_visible (visible (fst e2) (snd e2) loc).

(** The index pair of an entry of the log, and the order in which the two
    nested loops visit index pairs. *)
Definition index_pair {L : Type} (ev : Evaluated L) : nat * nat :=
  (first_index ev, second_index ev).

Definition index_lt (a b : nat * nat) : Prop :=
  (fst a < fst b)%nat \/ (fst a = fst b /\ (snd a < snd b)%nat).


(** An oracle whose [calc_ut] answers with the data tuple first and the flag
    second. *)
Definition data_first_oracle : Oracle :=
  {| sol_eclipse_when_glob := sol_eclipse_when_glob sample_oracle;
     lun_eclipse_when := lun_eclipse_when sample_oracle;
     sol_eclipse_how := sol_eclipse_how sample_oracle;
     lun_eclipse_how := lun_eclipse_how sample_oracle;
     calc_ut := fun _ _ => Ok (PTuple [PTuple [PNum 0; PNum 0];
                                       PTuple [PNum 0; PNum 0]]);
     sidtime := sidtime sample_oracle;
     revjul := revjul sample_oracle |}.

(** ** The cursor update in double precision

    The enumerator loops move the cursor with [jd = next + 1], an addition
    of doubles.  Whether the loops end depends on how far this addition
    moves the cursor, so the loop is given a second time, with the addition
    as a parameter, and the addition of doubles is the exact sum rounded to
    53 significant bits, to nearest, ties to even.  (The exponent is not
    bounded: overflow and subnormal numbers are left out.) *)

(** The exponent [e] with [2^e <= |x| < 2^(e+1)], for [x] other than 0. *)
Definition binade (x : Q) : Z :=
  let e := (Z.log2 (Z.abs (Qnum x)) - Z.log2 (Zpos (Qden x)))%Z in
  if Qle_bool (2 ^ e) (Qabs x) then e else (e - 1)%Z.

(** The integer nearest to [q]; of the two nearest ones, the even one. *)
Definition round_half_even (q : Q) : Z :=
  let f := Qfloor q in
  let r := q - inject_Z f in
  if Qlt_b r (1 # 2) then f
  else if Qlt_b (1 # 2) r then (f + 1)%Z
  else if Z.even f then f else (f + 1)%Z.

(** The double nearest to [x]: a multiple of [2^(e-52)], [e] the exponent of
    [x]. *)
Definition round_double (x : Q) : Q :=
  if Qeq_bool x 0 then 0
  else
    let ulp := 2 ^ (binade x - 52) in
    inject_Z (round_half_even (x / ulp)) * ulp.

(** [x + y] on doubles. *)
Definition double_add (x y : Q) : Q := round_double (x + y).

(** [while_loop] with the addition of [jd = next + 1] as a parameter:
    [Qplus] gives [while_loop] back, [double_add] gives the loop as the
    interpreter runs it. *)
Fixpoint while_loop_in (plus : Q -> Q -> Q) (step : Q -> Py (option Q))
    (k : kind) (jd_end : Q) (fuel : nat) (jd : Q) (eclipses : list event)
  : option (Py (list event)) :=
  match fuel with
  | O => None
  | S fuel' =>
      if Qlt_b jd jd_end then
        match step jd with
        | Raise => Some Raise
        | Ok None => Some (Ok eclipses)
        | Ok (Some t) =>
            while_loop_in plus step k jd_end fuel' (plus t 1)
              (eclipses ++ [(k, t)])
        end
      else Some (Ok eclipses)
  end.

(** The two texts of the loops: that of find_eclipse_pairs.py (shared with
    find_eclipse_pairs_grid.py) and that of find_final.py (shared with
    find_pairs_fixed.py). *)
Inductive script : Type := find_eclipse_pairs_py | find_final_py.

Definition loop_body (s : script)
  : (Q -> Py pyval) -> Q -> Q -> Py (option Q) :=
  match s with
  | find_eclipse_pairs_py => Pairs.step
  | find_final_py => Final.step
  end.

Definition enumerate_in (plus : Q -> Q -> Q) (s : script) (o : Oracle)
    (jd_end : Q) (k : kind)
  : nat -> Q -> list event -> option (Py (list event)) :=
  while_loop_in plus (loop_body s (eclipse_when o k) jd_end) k jd_end.

(** [Pairs.search_eclipses] and [Final.search_eclipses] over these loops. *)
Definition pairs_search_in (plus : Q -> Q -> Q) (o : Oracle)
    (test_locations : list Pairs.Loc) (jd_start jd_end max_gap_days : Q)
    (fuel : nat) : option (Py (list (Pair Pairs.Loc))) :=
  match collect_eclipses (enumerate_in plus find_eclipse_pairs_py o jd_end)
          fuel jd_start with
  | None => None
  | Some Raise => Some Raise
  | Some (Ok eclipses) =>
      Some (Pairs.find_pairs o max_gap_days eclipses test_locations)
  end.

Definition final_search_in (plus : Q -> Q -> Q) (o : Oracle)
    (grid_locs : list Final.Loc) (jd_start jd_end : Q) (fuel : nat)
  : option (Py (list (Pair Final.Loc))) :=
  match collect_eclipses (enumerate_in plus find_final_py o jd_end)
          fuel jd_start with
  | None => None
  | Some Raise => Some Raise
  | Some (Ok eclipses) => Some (Final.find_pairs o eclipses grid_locs)
  end.

(** The sample oracle with two other tables of eclipse times. *)
Definition table_oracle (solar_times lunar_times : list Q) : Oracle :=
  {| sol_eclipse_when_glob := search_table solar_times;
     lun_eclipse_when := search_table lunar_times;
     sol_eclipse_how := sol_eclipse_how sample_oracle;
     lun_eclipse_how := lun_eclipse_how sample_oracle;
     calc_ut := calc_ut sample_oracle;
     sidtime := sidtime sample_oracle;
     revjul := revjul sample_oracle |}.

(** Eclipse times from which one day more is the same double: 10^17 and
    2^53, each followed by the next double after it. *)
Definition far_solar_times : list Q :=
  [100000000000000000; 100000000000000016].

Definition far_lunar_times : list Q :=
  [9007199254740992; 9007199254740994].

Definition far_oracle : Oracle := table_oracle far_solar_times far_lunar_times.

(** ** Facts on the Python primitives *)

Lemma Qlt_b_true (x y : Q) : Qlt_b x y = true <-> x < y.
Proof.
  unfold Qlt_b. rewrite negb_true_iff. split; intros H.
  - apply Qnot_le_lt. intros Hle. apply Qle_bool_iff in Hle. congruence.
  - destruct (Qle_bool y x) eqn:E; [|reflexivity].
    apply Qle_bool_iff in E. lra.
Qed.

Lemma Qlt_b_false (x y : Q) : Qlt_b x y = false <-> y <= x.
Proof.
  unfold Qlt_b. rewrite negb_false_iff. apply Qle_bool_iff.
Qed.

Lemma Qle_bool_false (x y : Q) : Qle_bool x y = false <-> y < x.
Proof.
  split; intros H.
  - apply Qnot_le_lt. intros Hle. apply Qle_bool_iff in Hle. congruence.
  - destruct (Qle_bool x y) eqn:E; [|reflexivity].
    apply Qle_bool_iff in E. lra.
Qed.

Lemma bind_Ok {A B : Type} (m : Py A) (k : A -> Py B) (b : B) :
  bind m k = Ok b -> exists a, m = Ok a /\ k a = Ok b.
Proof.
  destruct m as [a|]; simpl; intros H; [eauto | discriminate].
Qed.

Lemma subscript_Ok (v : pyval) (i : nat) (x : pyval) :
  subscript v i = Ok x ->
  exists items, v = PTuple items /\ nth_error items i = Some x.
Proof.
  destruct v as [| |items]; simpl; try discriminate.
  destruct (nth_error items i) eqn:E; [|discriminate].
  intros H. injection H as <-. eauto.
Qed.

Lemma py_float_Ok (v : pyval) (q : Q) : py_float v = Ok q -> v = PNum q.
Proof.
  destruct v; simpl; try discriminate. intros H. injection H as <-. reflexivity.
Qed.

Lemma py_len_Ok (v : pyval) (n : nat) :
  py_len v = Ok n -> exists items, v = PTuple items /\ length items = n.
Proof.
  destruct v as [| |items]; simpl; try discriminate.
  intros H. injection H as <-. eauto.
Qed.

(** ** Double precision: how far one day moves the cursor *)

(** Rounding to the nearest integer is off by half a unit at most. *)
Lemma round_half_even_error (q : Q) :
  q - (1 # 2) <= inject_Z (round_half_even q) /\
  inject_Z (round_half_even q) <= q + (1 # 2).
Proof.
  assert (Hlo := Qfloor_le q). assert (Hhi := Qlt_floor q).
  rewrite inject_Z_plus in Hhi. change (inject_Z 1) with 1 in Hhi.
  unfold round_half_even.
  destruct (Qlt_b (q - inject_Z (Qfloor q)) (1 # 2)) eqn:E1.
  - apply Qlt_b_true in E1. lra.
  - apply Qlt_b_false in E1.
    assert (Hup : inject_Z (Qfloor q + 1) <= q + (1 # 2)).
    { rewrite inject_Z_plus. change (inject_Z 1) with 1. lra. }
    assert (Hup' : q - (1 # 2) <= inject_Z (Qfloor q + 1)).
    { rewrite inject_Z_plus. change (inject_Z 1) with 1. lra. }
    destruct (Qlt_b (1 # 2) (q - inject_Z (Qfloor q))) eqn:E2.
    + split; assumption.
    + apply Qlt_b_false in E2.
      destruct (Z.even (Qfloor q)); [lra | split; assumption].
Qed.

Lemma two_power_pos (e : Z) : 0 < 2 ^ e.
Proof.
  apply Qpower_0_lt. reflexivity.
Qed.

(** The exponent is not too large: [2^(binade x) <= |x|]. *)
Lemma binade_le (x : Q) : ~ x == 0 -> 2 ^ binade x <= Qabs x.
Proof.
  intros Hx. unfold binade.
  destruct (Qle_bool _ _) eqn:E; [apply Qle_bool_iff; exact E|].
  clear E. destruct x as [a b]. simpl Qnum. simpl Qden.
  assert (Ha : (0 < Z.abs a)%Z).
  { assert (a <> 0)%Z; [|lia]. intros ->. apply Hx. reflexivity. }
  assert (H1 := Z.log2_spec _ Ha).
  assert (H2 := Z.log2_spec (Zpos b) eq_refl).
  assert (L1 := Z.log2_nonneg (Z.abs a)).
  assert (L2 := Z.log2_nonneg (Zpos b)).
  set (la := Z.log2 (Z.abs a)) in *. set (lb := Z.log2 (Zpos b)) in *.
  replace (la - lb - 1)%Z with (la - Z.succ lb)%Z by lia.
  rewrite Qpower_minus by discriminate.
  change 2 with (inject_Z 2).
  rewrite <- !Zpower_Qpower by lia.
  destruct H1 as [H1 _]. destruct H2 as [_ H2].
  assert (Hp : (0 < 2 ^ la)%Z) by (apply Z.pow_pos_nonneg; lia).
  destruct (2 ^ Z.succ lb)%Z as [|r|r] eqn:Er; try lia.
  rewrite <- Qmake_Qdiv. unfold Qabs, Qle. simpl. nia.
Qed.

Lemma binade_below (x : Q) (n : Z) :
  ~ x == 0 -> Qabs x < 2 ^ n -> (binade x < n)%Z.
Proof.
  intros Hx Hlt. apply (Qpower_lt_compat_l_inv 2); [|reflexivity].
  apply Qle_lt_trans with (Qabs x); [apply binade_le; exact Hx | exact Hlt].
Qed.

(** Below 2^53 the doubles are at most 1 apart, so rounding to a double is
    off by a half at most. *)
Lemma round_double_error (x : Q) :
  Qabs x < 2 ^ 53 ->
  x - (1 # 2) <= round_double x /\ round_double x <= x + (1 # 2).
Proof.
  intros Hlt. unfold round_double.
  destruct (Qeq_bool x 0) eqn:E.
  - apply Qeq_bool_iff in E. rewrite E. split; discriminate.
  - assert (Hx : ~ x == 0).
    { intros C. apply Qeq_bool_iff in C. congruence. }
    assert (He := @binade_below x 53 Hx Hlt).
    set (u := 2 ^ (binade x - 52)).
    assert (Hu : 0 < u) by apply two_power_pos.
    assert (Hu1 : u <= 1).
    { change 1 with (2 ^ 0). apply Qpower_le_compat_l; [lia|discriminate]. }
    destruct (round_half_even_error (x / u)) as [H1 H2].
    set (n := inject_Z (round_half_even (x / u))) in *.
    assert (Hxu : x == (x / u) * u) by (field; lra).
    set (q := x / u) in *.
    assert (A1 : (q - (1 # 2)) * u <= n * u)
      by (apply Qmult_le_compat_r; lra).
    assert (A2 : n * u <= (q + (1 # 2)) * u)
      by (apply Qmult_le_compat_r; lra).
    split; nra.
Qed.

(** Adding one day in double precision moves a cursor that is at most 2^52
    in absolute value by half a day or more. *)
Lemma double_add_one_advances (t : Q) :
  - (2 ^ 52) <= t -> t <= 2 ^ 52 -> t + (1 # 2) <= double_add t 1.
Proof.
  intros Hlo Hhi. unfold double_add.
  assert (P52 : 2 ^ 52 == 4503599627370496) by reflexivity.
  assert (P53 : 2 ^ 53 == 9007199254740992) by reflexivity.
  assert (Habs : Qabs (t + 1) < 2 ^ 53).
  { rewrite P52 in Hlo, Hhi. rewrite P53. apply Qabs_case; intros _; lra. }
  destruct (@round_double_error (t + 1) Habs) as [H _]. lra.
Qed.

(** Sums of doubles as the interpreter computes them: [0.1 + 1] is
    [0x1.199999999999ap+0]; from 2^53 on, adding 1 gives the even neighbour,
    which can be the number itself. *)
Example double_add_samples :
  double_add 589000 1 == 589001 /\
  double_add (1 # 10) 1 == 4953959590107546 # 4503599627370496 /\
  double_add 9007199254740991 1 == 9007199254740992 /\
  double_add 9007199254740992 1 == 9007199254740992 /\
  double_add 9007199254740994 1 == 9007199254740996 /\
  double_add 100000000000000000 1 == 100000000000000000.
Proof.
  repeat split; vm_compute; reflexivity.
Qed.

(** ** The enumerator loops: termination, order and range *)

Lemma Qceiling_pred (x y : Q) :
  y <= x - 1 -> (Qceiling y <= Qceiling x - 1)%Z.
Proof.
  intros H.
  assert (H1 := Qceiling_lt y). assert (H2 := Qle_ceiling x).
  assert (H3 : inject_Z (Qceiling y - 1) < inject_Z (Qceiling x - 1)).
  { replace (Qceiling x - 1)%Z with (Qceiling x + - (1))%Z by lia.
    rewrite inject_Z_plus, inject_Z_opp.
    change (inject_Z 1) with 1. lra. }
  rewrite <- Zlt_Qlt in H3. lia.
Qed.

Lemma Qceiling_positive (x : Q) : 0 < x -> (0 < Qceiling x)%Z.
Proof.
  intros H. assert (H2 := Qle_ceiling x).
  rewrite Zlt_Qlt. change (inject_Z 0) with 0. lra.
Qed.

(** With the exact addition the loop is [while_loop]. *)
Lemma while_loop_exact (step : Q -> Py (option Q)) (k : kind) (jd_end : Q) :
  forall fuel jd eclipses,
    while_loop step k jd_end fuel jd eclipses
    = while_loop_in Qplus step k jd_end fuel jd eclipses.
Proof.
  induction fuel as [|fuel IH]; intros jd eclipses; [reflexivity|].
  simpl. destruct (Qlt_b jd jd_end); [|reflexivity].
  destruct (step jd) as [[t|]|]; auto.
Qed.

Lemma enumerate_in_exact (o : Oracle) (jd_end : Q) (k : kind) (fuel : nat)
    (jd : Q) (eclipses : list event) :
  Pairs.enumerate o jd_end k fuel jd eclipses
  = enumerate_in Qplus find_eclipse_pairs_py o jd_end k fuel jd eclipses /\
  Final.enumerate o jd_end k fuel jd eclipses
  = enumerate_in Qplus find_final_py o jd_end k fuel jd eclipses.
Proof.
  split; apply while_loop_exact.
Qed.

(** One run of the body that appends. *)
Lemma while_loop_in_step (plus : Q -> Q -> Q) (step : Q -> Py (option Q))
    (k : kind) (jd_end : Q) (fuel : nat) (jd t : Q) (eclipses : list event) :
  Qlt_b jd jd_end = true ->
  step jd = Ok (Some t) ->
  while_loop_in plus step k jd_end (S fuel) jd eclipses
  = while_loop_in plus step k jd_end fuel (plus t 1) (eclipses ++ [(k, t)]).
Proof.
  intros H1 H2. simpl. rewrite H1, H2. reflexivity.
Qed.

(** A cursor that the addition does not move, at a time the search reports
    again: the loop never leaves. *)
Lemma while_loop_in_stalls (plus : Q -> Q -> Q) (step : Q -> Py (option Q))
    (k : kind) (jd_end t : Q) :
  plus t 1 = t ->
  step t = Ok (Some t) ->
  Qlt_b t jd_end = true ->
  forall fuel eclipses, while_loop_in plus step k jd_end fuel t eclipses = None.
Proof.
  intros Hplus Hstep Hlt.
  induction fuel as [|fuel IH]; intros eclipses; [reflexivity|].
  rewrite (@while_loop_in_step plus step k jd_end fuel t t eclipses Hlt Hstep).
  rewrite Hplus. apply IH.
Qed.

Section WhileLoopIn.

Variable plus : Q -> Q -> Q.
Variable step : Q -> Py (option Q).
Variable k : kind.
Variables jd_start jd_end : Q.

(** What a monotonic search gives the body of the loop: a time it appends
    is at or after the cursor and before the end. *)
Hypothesis step_advances : forall jd t, step jd = Ok (Some t) -> jd <= t.
Hypothesis step_bounded : forall jd t, step jd = Ok (Some t) -> t < jd_end.

(** What the addition has to give: inside the range, one day more is at
    least half a day more. *)
Hypothesis plus_advances :
  forall t, jd_start <= t -> t < jd_end -> t + (1 # 2) <= plus t 1.

(** Twice the number of days left bounds the number of iterations. *)
Lemma while_loop_in_terminates (fuel : nat) :
  forall jd eclipses,
    jd_start <= jd ->
    (Z.max 0 (Qceiling (2 * (jd_end - jd))) < Z.of_nat fuel)%Z ->
    exists r, while_loop_in plus step k jd_end fuel jd eclipses = Some r.
Proof using step_advances step_bounded plus_advances.
  induction fuel as [|fuel IH]; intros jd eclipses Hjd Hfuel; [lia|].
  simpl. destruct (Qlt_b jd jd_end) eqn:Hlt; [|eauto].
  destruct (step jd) as [[t|]|] eqn:Hstep; eauto.
  apply Qlt_b_true in Hlt.
  assert (Ha := step_advances Hstep). assert (Hb := step_bounded Hstep).
  assert (Hp : t + (1 # 2) <= plus t 1) by (apply plus_advances; lra).
  apply IH; [lra|].
  assert (H1 : (Qceiling (2 * (jd_end - plus t 1))
                <= Qceiling (2 * (jd_end - jd)) - 1)%Z)
    by (apply Qceiling_pred; lra).
  assert (H2 : (0 < Qceiling (2 * (jd_end - jd)))%Z)
    by (apply Qceiling_positive; lra).
  lia.
Qed.

(** What the loop appends is strictly increasing and within the range. *)
Lemma while_loop_in_appends (fuel : nat) :
  forall jd eclipses l,
    jd_start <= jd ->
    while_loop_in plus step k jd_end fuel jd eclipses = Some (Ok l) ->
    exists new,
      l = eclipses ++ new /\
      StronglySorted Qlt (map snd new) /\
      Forall (fun e => fst e = k /\ jd <= snd e /\ snd e < jd_end) new.
Proof using step_advances step_bounded plus_advances.
  induction fuel as [|fuel IH]; intros jd eclipses l Hjd H; [discriminate|].
  simpl in H. destruct (Qlt_b jd jd_end) eqn:Hlt.
  - destruct (step jd) as [[t|]|] eqn:Hstep.
    + assert (Ha := step_advances Hstep). assert (Hb := step_bounded Hstep).
      assert (Hp : t + (1 # 2) <= plus t 1) by (apply plus_advances; lra).
      apply IH in H; [|lra]. destruct H as (new & -> & Hsorted & Hrange).
      exists ((k, t) :: new). split; [|split].
      * rewrite <- app_assoc. reflexivity.
      * simpl. constructor; [exact Hsorted|].
        rewrite Forall_map. eapply Forall_impl; [|exact Hrange].
        simpl. intros e (_ & He & _). lra.
      * constructor.
        -- simpl. repeat split; assumption.
        -- eapply Forall_impl; [|exact Hrange].
           simpl. intros e (Hk & He & Hend). repeat split; auto; lra.
    + injection H as <-. exists []. rewrite app_nil_r.
      repeat split; constructor.
    + discriminate.
  - injection H as <-. exists []. rewrite app_nil_r.
    repeat split; constructor.
Qed.

End WhileLoopIn.

Section WhileLoopInInvariant.

Variable plus : Q -> Q -> Q.
Variable step : Q -> Py (option Q).
Variable k : kind.
Variable jd_end : Q.
Variable accepted : Q -> Prop.
Hypothesis step_accepts : forall jd t, step jd = Ok (Some t) -> accepted t.

(** Whatever the addition does to the cursor, what holds of every time the
    body accepts holds of every event the loop appends. *)
Lemma while_loop_in_invariant (fuel : nat) :
  forall jd eclipses l,
    while_loop_in plus step k jd_end fuel jd eclipses = Some (Ok l) ->
    exists new,
      l = eclipses ++ new /\
      Forall (fun e => fst e = k /\ accepted (snd e)) new.
Proof using step_accepts.
  induction fuel as [|fuel IH]; intros jd eclipses l H; [discriminate|].
  simpl in H. destruct (Qlt_b jd jd_end).
  - destruct (step jd) as [[t|]|] eqn:Hstep.
    + apply IH in H. destruct H as (new & -> & Hall).
      exists ((k, t) :: new). split; [rewrite <- app_assoc; reflexivity|].
      constructor; [|exact Hall]. split; [reflexivity|]. simpl. eauto.
    + injection H as <-. exists []. rewrite app_nil_r. split; constructor.
    + discriminate.
  - injection H as <-. exists []. rewrite app_nil_r. split; constructor.
Qed.

End WhileLoopInInvariant.

(** What the loop returns does not depend on the list it appends to. *)
Lemma while_loop_in_prefix (plus : Q -> Q -> Q) (step : Q -> Py (option Q))
    (k : kind) (jd_end : Q) :
  forall fuel jd eclipses new,
    while_loop_in plus step k jd_end fuel jd [] = Some (Ok new) <->
    while_loop_in plus step k jd_end fuel jd eclipses
    = Some (Ok (eclipses ++ new)).
Proof.
  assert (Hgen : forall fuel jd acc,
             while_loop_in plus step k jd_end fuel jd acc
             = match while_loop_in plus step k jd_end fuel jd [] with
               | Some (Ok new) => Some (Ok (acc ++ new))
               | Some Raise => Some Raise
               | None => None
               end).
  { induction fuel as [|fuel IH]; intros jd acc; [reflexivity|].
    simpl. destruct (Qlt_b jd jd_end); [|rewrite app_nil_r; reflexivity].
    destruct (step jd) as [[t|]|]; try (rewrite ?app_nil_r; reflexivity).
    rewrite (IH _ (acc ++ [(k, t)])), (IH _ ([] ++ [(k, t)])).
    destruct (while_loop_in plus step k jd_end fuel (plus t 1) [])
      as [[new|]|]; try reflexivity.
    simpl. rewrite <- app_assoc. reflexivity. }
  intros fuel jd eclipses new. rewrite (Hgen fuel jd eclipses).
  destruct (while_loop_in plus step k jd_end fuel jd []) as [[new'|]|].
  - split; intros H.
    + injection H as ->. reflexivity.
    + injection H as H. apply app_inv_head in H. subst. reflexivity.
  - split; discriminate.
  - split; discriminate.
Qed.

(** Two bodies that agree give the same loop. *)
Lemma while_loop_ext (step1 step2 : Q -> Py (option Q)) (k : kind)
    (jd_end : Q) :
  (forall jd, step1 jd = step2 jd) ->
  forall fuel jd eclipses,
    while_loop step1 k jd_end fuel jd eclipses
    = while_loop step2 k jd_end fuel jd eclipses.
Proof.
  intros Hext. induction fuel as [|fuel IH]; intros jd eclipses; [reflexivity|].
  simpl. rewrite Hext. destruct (Qlt_b jd jd_end); [|reflexivity].
  destruct (step2 jd) as [[t|]|]; auto.
Qed.

(** A time the body of the loop of find_eclipse_pairs.py appends is the time
    the search reported, and lies before the end. *)
Lemma pairs_step_Some (when : Q -> Py pyval) (jd_end jd t : Q) :
  Pairs.step when jd_end jd = Ok (Some t) ->
  (exists result,
     when jd = Ok result /\ max_eclipse_time result = Some t)
  /\ t < jd_end.
Proof.
  unfold Pairs.step, Pairs.find_next_eclipse. intros H.
  apply bind_Ok in H as (next & Hnext & H).
  destruct (truthy next); [|discriminate].
  apply bind_Ok in H as (t' & Ht & H).
  destruct (Qlt_b t' jd_end) eqn:Hlt; [|discriminate].
  injection H as ->. apply Qlt_b_true in Hlt. split; [|exact Hlt].
  apply py_float_Ok in Ht. subst next.
  apply bind_Ok in Hnext as (result & Hres & Hnext).
  apply bind_Ok in Hnext as (r0 & Hr0 & Hnext).
  apply bind_Ok in Hnext as (flag & Hflag & Hnext).
  destruct (Qle_bool 0 flag); [|discriminate].
  apply bind_Ok in Hnext as (r1 & Hr1 & Hr10).
  exists result. split; [assumption|].
  apply subscript_Ok in Hr1 as (items & -> & Hr1).
  apply subscript_Ok in Hr10 as (items' & -> & Hr10).
  destruct items as [|x [|y rest]]; try discriminate.
  simpl in Hr1. injection Hr1 as ->.
  destruct items' as [|z rest']; try discriminate.
  simpl in Hr10. injection Hr10 as ->. reflexivity.
Qed.

(** The same for the loop of find_final.py. *)
Lemma final_step_Some (when : Q -> Py pyval) (jd_end jd t : Q) :
  Final.step when jd_end jd = Ok (Some t) ->
  (exists result,
     when jd = Ok result /\ max_eclipse_time result = Some t)
  /\ t < jd_end.
Proof.
  unfold Final.step. intros H.
  apply bind_Ok in H as (result & Hres & H).
  apply bind_Ok in H as (r0 & Hr0 & H).
  apply bind_Ok in H as (flag & Hflag & H).
  destruct (Qlt_b 0 flag); [|discriminate].
  apply bind_Ok in H as (r1 & Hr1 & H).
  apply bind_Ok in H as (r10 & Hr10 & H).
  apply bind_Ok in H as (t' & Ht & H).
  destruct (Qlt_b t' jd_end) eqn:Hlt; [|discriminate].
  injection H as ->. apply Qlt_b_true in Hlt. split; [|exact Hlt].
  apply py_float_Ok in Ht. subst r10.
  exists result. split; [assumption|].
  apply subscript_Ok in Hr1 as (items & -> & Hr1).
  apply subscript_Ok in Hr10 as (items' & -> & Hr10).
  destruct items as [|x [|y rest]]; try discriminate.
  simpl in Hr1. injection Hr1 as ->.
  destruct items' as [|z rest']; try discriminate.
  simpl in Hr10. injection Hr10 as ->. reflexivity.
Qed.

Lemma search_table_monotonic (times : list Q) : monotonic (search_table times).
Proof.
  intros jd result t H Ht. unfold search_table in H.
  destruct (find (fun t => Qle_bool jd t) times) as [t'|] eqn:E.
  - injection H as <-. simpl in Ht. injection Ht as <-.
    apply find_some in E. apply Qle_bool_iff. apply E.
  - injection H as <-. discriminate.
Qed.

(** A time either loop body appends is the time the search reported, and
    lies before the end. *)
Lemma loop_body_Some (s : script) (when : Q -> Py pyval) (jd_end jd t : Q) :
  loop_body s when jd_end jd = Ok (Some t) ->
  (exists result,
     when jd = Ok result /\ max_eclipse_time result = Some t)
  /\ t < jd_end.
Proof.
  destruct s; simpl; [apply pairs_step_Some | apply final_step_Some].
Qed.

(** With a monotonic search and a range within 2^52 days of day 0, an
    iteration that appends moves the cursor by half a day or more. *)
Lemma loop_body_advances (s : script) (when : Q -> Py pyval)
    (jd_start jd_end jd t : Q) :
  monotonic when ->
  - (2 ^ 52) <= jd_start ->
  jd_end <= 2 ^ 52 ->
  jd_start <= jd ->
  loop_body s when jd_end jd = Ok (Some t) ->
  jd <= t /\ t < jd_end /\ t + (1 # 2) <= double_add t 1.
Proof.
  intros Hmono Hlo Hhi Hjd H.
  apply loop_body_Some in H as ((result & Hr & Ht) & Hend).
  assert (Hadv : jd <= t) by (eapply Hmono; eassumption).
  repeat split; try assumption.
  apply double_add_one_advances; lra.
Qed.

(** C3. In double arithmetic, for a range within 2^52 days of day 0 and a
    monotonic search, each per-kind enumerator loop (that of
    find_eclipse_pairs.py and find_eclipse_pairs_grid.py, and that of
    find_final.py) ends within twice as many iterations as there are days in
    the range, plus one; and the events it appends have strictly increasing
    times that all lie in [jd_start, jd_end). *)
Theorem enumerate_increasing_in_range (s : script) (o : Oracle) (k : kind)
    (jd_start jd_end : Q) (eclipses : list event) :
  monotonic (eclipse_when o k) ->
  - (2 ^ 52) <= jd_start ->
  jd_end <= 2 ^ 52 ->
  (forall fuel,
     (Z.max 0 (Qceiling (2 * (jd_end - jd_start))) < Z.of_nat fuel)%Z ->
     exists r,
       enumerate_in double_add s o jd_end k fuel jd_start eclipses = Some r) /\
  (forall fuel l,
     enumerate_in double_add s o jd_end k fuel jd_start eclipses
     = Some (Ok l) ->
     exists new,
       l = eclipses ++ new /\
       StronglySorted Qlt (map snd new) /\
       Forall (fun e => fst e = k /\ jd_start <= snd e /\ snd e < jd_end)
              new).
Proof.
  intros Hmono Hlo Hhi.
  assert (Hadv : forall jd t,
             loop_body s (eclipse_when o k) jd_end jd = Ok (Some t) ->
             jd <= t).
  { intros jd t H. apply loop_body_Some in H as ((result & Hr & Ht) & _).
    eapply Hmono; eassumption. }
  assert (Hend : forall jd t,
             loop_body s (eclipse_when o k) jd_end jd = Ok (Some t) ->
             t < jd_end).
  { intros jd t H. apply loop_body_Some in H as (_ & H). exact H. }
  assert (Hplus : forall t,
             jd_start <= t -> t < jd_end -> t + (1 # 2) <= double_add t 1).
  { intros t H1 H2. apply double_add_one_advances; lra. }
  split.
  - intros fuel Hfuel. unfold enumerate_in.
    apply (@while_loop_in_terminates double_add _ k jd_start jd_end
             Hadv Hend Hplus fuel jd_start eclipses); [lra | exact Hfuel].
  - intros fuel l H. unfold enumerate_in in H.
    apply (@while_loop_in_appends double_add _ k jd_start jd_end
             Hadv Hend Hplus fuel jd_start eclipses l); [lra | exact H].
Qed.

Lemma enumerate_increasing_in_range_witness :
  monotonic (eclipse_when sample_oracle solar) /\
  - (2 ^ 52) <= 0 /\
  100 <= 2 ^ 52 /\
  enumerate_in double_add find_eclipse_pairs_py sample_oracle 100 solar 5 0 []
  = Some (Ok [(solar, 10); (solar, 40)]) /\
  exists new,
    [(solar, 10); (solar, 40)] = [] ++ new /\
    StronglySorted Qlt (map snd new) /\
    Forall (fun e => fst e = solar /\ 0 <= snd e /\ snd e < 100) new.
Proof.
  assert (Hlo : - (2 ^ 52) <= 0) by (vm_compute; discriminate).
  assert (Hhi : 100 <= 2 ^ 52) by (vm_compute; discriminate).
  split; [apply search_table_monotonic|].
  split; [exact Hlo|]. split; [exact Hhi|].
  split; [vm_compute; reflexivity|].
  apply (proj2 (@enumerate_increasing_in_range find_eclipse_pairs_py
                  sample_oracle solar 0 100 []
                  (search_table_monotonic _) Hlo Hhi) 5%nat).
  vm_compute. reflexivity.
Defined.

(** Outside that range the statement fails.  The lunar search below is
    monotonic and the range is finite, but one day after 2^53 is 2^53 again
    in double arithmetic: once the loop of find_eclipse_pairs.py has appended
    the eclipse at 2^53 it appends it again at every iteration, and no
    number of iterations gives a list. *)
Lemma enumerate_appends_again_from_2_53 :
  monotonic (eclipse_when far_oracle lunar) /\
  double_add 9007199254740992 1 = 9007199254740992 /\
  (forall fuel l,
     enumerate_in double_add find_eclipse_pairs_py far_oracle
       18014398509481984 lunar (S fuel) 9007199254740992 l
     = enumerate_in double_add find_eclipse_pairs_py far_oracle
         18014398509481984 lunar fuel 9007199254740992
         (l ++ [(lunar, 9007199254740992)])) /\
  (forall fuel,
     enumerate_in double_add find_eclipse_pairs_py far_oracle
       18014398509481984 lunar fuel 0 [] = None).
Proof.
  assert (Hplus : double_add 9007199254740992 1 = 9007199254740992)
    by (vm_compute; reflexivity).
  assert (Hstep : Pairs.step (eclipse_when far_oracle lunar)
                    18014398509481984 9007199254740992
                  = Ok (Some 9007199254740992))
    by (vm_compute; reflexivity).
  assert (Hlt : Qlt_b 9007199254740992 18014398509481984 = true)
    by (vm_compute; reflexivity).
  split; [apply search_table_monotonic|]. split; [exact Hplus|]. split.
  - intros fuel l. unfold enumerate_in, loop_body.
    rewrite (@while_loop_in_step double_add _ lunar _ fuel _ _ l Hlt Hstep).
    rewrite Hplus. reflexivity.
  - intros [|fuel]; [reflexivity|]. unfold enumerate_in, loop_body.
    rewrite (@while_loop_in_step double_add _ lunar 18014398509481984 fuel
               0 9007199254740992 []);
      [|vm_compute; reflexivity|vm_compute; reflexivity].
    rewrite Hplus.
    apply while_loop_in_stalls; assumption.
Qed.

(** C7. In double arithmetic, for a range within 2^52 days of day 0 and a
    monotonic search, the enumerator loops of find_eclipse_pairs.py and of
    find_final.py end: every iteration that appends moves the cursor forward
    by half a day or more (the double nearest to the time plus one) and keeps
    the appended time before the end, so one more iteration than twice the
    number of days in the range is always enough. *)
Theorem enumerate_terminates (o : Oracle) (k : kind) (jd_start jd_end : Q)
    (eclipses : list event) :
  monotonic (eclipse_when o k) ->
  - (2 ^ 52) <= jd_start ->
  jd_end <= 2 ^ 52 ->
  (forall s jd t,
     jd_start <= jd ->
     loop_body s (eclipse_when o k) jd_end jd = Ok (Some t) ->
     jd + (1 # 2) <= double_add t 1 /\ t < jd_end) /\
  (forall s fuel,
     (Z.max 0 (Qceiling (2 * (jd_end - jd_start))) < Z.of_nat fuel)%Z ->
     exists r,
       enumerate_in double_add s o jd_end k fuel jd_start eclipses = Some r).
Proof.
  intros Hmono Hlo Hhi.
  assert (Hstep : forall s jd t,
             jd_start <= jd ->
             loop_body s (eclipse_when o k) jd_end jd = Ok (Some t) ->
             jd <= t /\ t < jd_end /\ t + (1 # 2) <= double_add t 1).
  { intros s jd t Hjd H. eapply loop_body_advances; eassumption. }
  split.
  - intros s jd t Hjd H. destruct (Hstep s jd t Hjd H) as (H1 & H2 & H3).
    split; [lra | exact H2].
  - intros s fuel Hfuel. unfold enumerate_in.
    apply (@while_loop_in_terminates double_add _ k jd_start jd_end);
      [| | |lra|exact Hfuel].
    + intros jd t H. apply loop_body_Some in H as ((result & Hr & Ht) & _).
      eapply Hmono; eassumption.
    + intros jd t H. apply loop_body_Some in H as (_ & H). exact H.
    + intros t H1 H2. apply double_add_one_advances; lra.
Qed.

Lemma enumerate_terminates_witness :
  monotonic (eclipse_when sample_oracle lunar) /\
  - (2 ^ 52) <= 0 /\
  300 <= 2 ^ 52 /\
  (Z.max 0 (Qceiling (2 * (300 - 0))) < Z.of_nat 601)%Z /\
  (exists r,
     enumerate_in double_add find_eclipse_pairs_py sample_oracle 300 lunar
       601 0 [] = Some r) /\
  (exists r,
     enumerate_in double_add find_final_py sample_oracle 300 lunar
       601 0 [] = Some r).
Proof.
  assert (Hlo : - (2 ^ 52) <= 0) by (vm_compute; discriminate).
  assert (Hhi : 300 <= 2 ^ 52) by (vm_compute; discriminate).
  assert (Hfuel : (Z.max 0 (Qceiling (2 * (300 - 0))) < Z.of_nat 601)%Z)
    by (vm_compute; reflexivity).
  split; [apply search_table_monotonic|].
  split; [exact Hlo|]. split; [exact Hhi|]. split; [exact Hfuel|].
  split;
    apply (proj2 (@enumerate_terminates sample_oracle lunar 0 300 []
                    (search_table_monotonic _) Hlo Hhi) _ 601%nat Hfuel).
Defined.

(** Outside that range the loops need not end.  The solar search below is
    monotonic and the range is finite; with exact sums the loop of
    find_final.py ends after the two eclipses, but one day after 10^17 is
    10^17 again in double arithmetic, so the cursor stays where it is and
    neither loop is ever left. *)
Lemma enumerate_never_ends_at_1e17 :
  monotonic (eclipse_when far_oracle solar) /\
  double_add 100000000000000000 1 = 100000000000000000 /\
  Final.enumerate far_oracle 200000000000000000 solar 3 0 []
  = Some (Ok [(solar, 100000000000000000); (solar, 100000000000000016)]) /\
  (forall s fuel,
     enumerate_in double_add s far_oracle 200000000000000000 solar fuel 0 []
     = None).
Proof.
  assert (Hplus : double_add 100000000000000000 1 = 100000000000000000)
    by (vm_compute; reflexivity).
  assert (Hlt : Qlt_b 100000000000000000 200000000000000000 = true)
    by (vm_compute; reflexivity).
  split; [apply search_table_monotonic|]. split; [exact Hplus|].
  split; [vm_compute; reflexivity|].
  intros s [|fuel]; [reflexivity|]. unfold enumerate_in.
  rewrite (@while_loop_in_step double_add _ solar 200000000000000000 fuel
             0 100000000000000000 []);
    [|vm_compute; reflexivity|destruct s; vm_compute; reflexivity].
  rewrite Hplus.
  apply while_loop_in_stalls; [exact Hplus| |exact Hlt].
  destruct s; vm_compute; reflexivity.
Qed.

(** ** The two acceptance tests of the enumerators *)

(** On a decisive answer the two loop bodies do the same. *)
Lemma steps_agree (when : Q -> Py pyval) (jd_end jd : Q) :
  (forall result, when jd = Ok result -> decisive result) ->
  Pairs.step when jd_end jd = Final.step when jd_end jd.
Proof.
  intros Hdec. unfold Pairs.step, Pairs.find_next_eclipse, Final.step.
  destruct (when jd) as [result|] eqn:Hres; [|reflexivity].
  destruct (Hdec result eq_refl) as (Hflag & Htime).
  simpl. destruct (subscript result 0) as [r0|] eqn:Hr0; [|reflexivity].
  simpl. destruct (py_float r0) as [flag|] eqn:Hf; [|reflexivity].
  simpl. apply py_float_Ok in Hf. subst r0.
  apply subscript_Ok in Hr0 as (items & -> & Hr0).
  destruct items as [|x rest]; [discriminate|].
  simpl in Hr0. injection Hr0 as ->.
  assert (Hnz : ~ flag == 0) by (apply Hflag; reflexivity).
  destruct (Qle_bool 0 flag) eqn:Hle.
  - apply Qle_bool_iff in Hle.
    assert (Hlt : Qlt_b 0 flag = true) by (apply Qlt_b_true; lra).
    rewrite Hlt.
    destruct (subscript (PTuple (PNum flag :: rest)) 1) as [r1|] eqn:Hr1;
      [|reflexivity].
    simpl. destruct (subscript r1 0) as [v|] eqn:Hv; [|reflexivity].
    simpl. rewrite (Htime r1 v eq_refl Hv). reflexivity.
  - apply Qle_bool_false in Hle.
    assert (Hlt : Qlt_b 0 flag = false) by (apply Qlt_b_false; lra).
    rewrite Hlt. reflexivity.
Qed.

(** C10, as the code has it.  The solar (and the lunar) collection loop of
    find_eclipse_pairs.py and that of find_final.py give the same outcome
    (the same list of events, the same exception) for every range and every
    oracle whose search never answers with return flag 0 and never reports a
    time that counts as false (0, None, an empty tuple). *)
Theorem enumerators_agree_when_decisive (o : Oracle) (k : kind) (jd_end : Q) :
  (forall jd result, eclipse_when o k jd = Ok result -> decisive result) ->
  forall fuel jd_start eclipses,
    Pairs.enumerate o jd_end k fuel jd_start eclipses
    = Final.enumerate o jd_end k fuel jd_start eclipses.
Proof.
  intros Hdec fuel jd_start eclipses.
  unfold Pairs.enumerate, Final.enumerate.
  apply while_loop_ext. intros jd. apply steps_agree. apply Hdec.
Qed.

Lemma sample_search_decisive (jd : Q) (result : pyval) :
  eclipse_when sample_oracle solar jd = Ok result -> decisive result.
Proof.
  simpl. unfold search_table. simpl.
  destruct (Qle_bool jd 10);
    [|destruct (Qle_bool jd 40); [|destruct (Qle_bool jd 200)]];
    intros H; injection H as <-; split;
    try (intros flag H; injection H as <-; intros Hz; vm_compute in Hz;
         discriminate);
    intros r1 v H1 H2; simpl in H1; injection H1 as <-; simpl in H2;
    try discriminate; injection H2 as <-; reflexivity.
Qed.

Lemma enumerators_agree_when_decisive_witness :
  (forall jd result,
     eclipse_when sample_oracle solar jd = Ok result -> decisive result) /\
  Pairs.enumerate sample_oracle 100 solar 5 0 []
  = Final.enumerate sample_oracle 100 solar 5 0 [].
Proof.
  split; [exact sample_search_decisive|].
  apply (enumerators_agree_when_decisive sample_oracle solar 100
           sample_search_decisive).
Defined.

(** C10 as stated fails.  A search that answers with return flag 0 and a time
    inside the range: find_eclipse_pairs.py accepts the answer, find_final.py
    breaks out of the loop at once. *)
Lemma enumerators_disagree_on_flag_zero :
  let o := with_solar_when (constant_search 0 1) in
  Pairs.enumerate o 2 solar 5 0 [] = Some (Ok [(solar, 1)]) /\
  Final.enumerate o 2 solar 5 0 [] = Some (Ok []) /\
  ~ (forall (o : Oracle) (jd_start jd_end : Q) (fuel : nat),
       Pairs.enumerate o jd_end solar fuel jd_start []
       = Final.enumerate o jd_end solar fuel jd_start []).
Proof.
  split; [reflexivity|]. split; [reflexivity|].
  intros H.
  specialize (H (with_solar_when (constant_search 0 1)) 0 2 5%nat).
  vm_compute in H. discriminate.
Qed.

(** ** The solar visibility check *)

(** When the statements inside [try] reach [return]. *)
Lemma pairs_solar_attempt_Some (o : Oracle) (jd lat lon : Q)
    (v : bool) (m t : Q) :
  Pairs.solar_attempt o jd lat lon = Ok (Some (v, m, t)) <->
  exists attrs rest,
    sol_eclipse_how o jd lat lon
    = Ok (PTuple (PNum t :: PTuple attrs :: rest)) /\
    0 <= t /\ reported_magnitude attrs m /\ v = Qlt_b (1 # 1000) m.
Proof.
  unfold Pairs.solar_attempt. split.
  - intros H.
    apply bind_Ok in H as (attr & Hattr & H).
    apply bind_Ok in H as (a0 & Ha0 & H).
    apply bind_Ok in H as (flag & Hflag & H).
    destruct (Qle_bool 0 flag) eqn:Hle; [|discriminate].
    apply bind_Ok in H as (a1 & Ha1 & H).
    apply bind_Ok in H as (n & Hn & H).
    apply bind_Ok in H as (fraction & Hfr & H).
    apply bind_Ok in H as (magnitude & Hmag & H).
    apply bind_Ok in H as (m' & Hm & H).
    injection H as <- <- <-.
    apply py_float_Ok in Hflag, Hm. subst a0 magnitude.
    apply py_len_Ok in Hn as (attrs & -> & <-).
    apply subscript_Ok in Ha0 as (items & -> & Ha0).
    destruct items as [|x [|y rest]]; try discriminate.
    simpl in Ha0. injection Ha0 as ->.
    simpl in Ha1. injection Ha1 as ->.
    exists attrs, rest. split; [assumption|].
    split; [apply Qle_bool_iff; assumption|]. split; [|reflexivity].
    unfold reported_magnitude.
    destruct (4 <? length attrs)%nat eqn:H4.
    + apply Nat.ltb_lt in H4. left. split; [assumption|].
      apply subscript_Ok in Hmag as (items & Heq & Hmag).
      injection Heq as <-. assumption.
    + apply Nat.ltb_ge in H4. injection Hmag as ->.
      destruct (0 <? length attrs)%nat eqn:H0.
      * apply Nat.ltb_lt in H0. right. left. split; [lia|].
        apply subscript_Ok in Hfr as (items & Heq & Hfr).
        injection Heq as <-. assumption.
      * apply Nat.ltb_ge in H0. right. right.
        injection Hfr as <-. split; [|reflexivity].
        destruct attrs; [reflexivity | simpl in H0; lia].
  - intros (attrs & rest & Hhow & Hflag & Hmag & ->).
    rewrite Hhow. simpl. apply Qle_bool_iff in Hflag. rewrite Hflag. simpl.
    destruct Hmag as [(H4 & Hm) | [(H0 & Hm) | (-> & ->)]].
    + destruct attrs as [|x0 [|x1 [|x2 [|x3 [|x4 more]]]]];
        simpl in H4; try lia.
      simpl in Hm. injection Hm as ->. reflexivity.
    + destruct attrs as [|x0 [|x1 [|x2 [|x3 [|x4 more]]]]];
        simpl in H0; try lia;
        simpl in Hm; injection Hm as ->; reflexivity.
    + reflexivity.
Qed.

(** The check returns what the statements inside [try] returned, and
    (False, 0, 0) in every other case. *)
Lemma pairs_solar_check_cases (o : Oracle) (jd lat lon : Q) :
  (exists r,
     Pairs.solar_attempt o jd lat lon = Ok (Some r) /\
     Pairs.check_solar_eclipse_visibility o jd lat lon = Ok r) \/
  ((Pairs.solar_attempt o jd lat lon = Raise \/
    Pairs.solar_attempt o jd lat lon = Ok None) /\
   Pairs.check_solar_eclipse_visibility o jd lat lon = Ok (false, 0, 0)).
Proof.
  unfold Pairs.check_solar_eclipse_visibility.
  destruct (Pairs.solar_attempt o jd lat lon) as [[r|]|]; simpl; eauto.
Qed.

(** When the solar check of find_final.py sees the eclipse. *)
Lemma final_solar_visible (o : Oracle) (jd lon lat : Q) :
  Final.visible o solar jd (lon, lat) = Ok true <->
  exists flag fraction attrs rest,
    sol_eclipse_how o jd lon lat
    = Ok (PTuple (PNum flag :: PTuple (PNum fraction :: attrs) :: rest)) /\
    0 < flag /\ 1 # 1000 < fraction.
Proof.
  unfold Final.visible, Final.attempt, try_except. split.
  - destruct (sol_eclipse_how o jd lon lat) as [attr|]; [|discriminate].
    simpl.
    destruct (subscript attr 0) as [a0|] eqn:Ha0; [|discriminate]. simpl.
    destruct (py_float a0) as [flag|] eqn:Hflag; [|discriminate]. simpl.
    destruct (Qlt_b 0 flag) eqn:Hpos; [|discriminate].
    destruct (subscript attr 1) as [a1|] eqn:Ha1; [|discriminate]. simpl.
    destruct (py_len a1) as [n|] eqn:Hn; [|discriminate]. simpl.
    destruct (0 <? n)%nat; [|discriminate].
    destruct (subscript a1 0) as [a10|] eqn:Ha10; [|discriminate]. simpl.
    destruct (py_float a10) as [fraction|] eqn:Hfr; [|discriminate]. simpl.
    intros H. injection H as H.
    apply py_float_Ok in Hflag, Hfr. subst a0 a10.
    apply subscript_Ok in Ha0 as (items & -> & Ha0).
    apply subscript_Ok in Ha10 as (attrs & -> & Ha10).
    destruct items as [|x [|y rest]]; try discriminate.
    simpl in Ha0, Ha1. injection Ha0 as ->. injection Ha1 as ->.
    destruct attrs as [|z attrs]; [discriminate|].
    simpl in Ha10. injection Ha10 as ->.
    exists flag, fraction, attrs, rest.
    split; [reflexivity|]. split; apply Qlt_b_true; assumption.
  - intros (flag & fraction & attrs & rest & -> & Hflag & Hfr).
    apply Qlt_b_true in Hflag, Hfr. simpl. rewrite Hflag. simpl.
    rewrite Hfr. reflexivity.
Qed.

(** C5, as the code has it.  The solar check of find_eclipse_pairs.py
    returns visible exactly when the oracle answers with a return flag that
    is not negative and the magnitude read off its attributes (attribute 4,
    else the fraction covered, else 0) exceeds 0.001; the solar check of
    find_final.py returns visible exactly when the oracle answers with a
    positive return flag and a fraction covered that exceeds 0.001. *)
Theorem solar_visible_iff (o : Oracle) (jd a b : Q) :
  ((exists m t,
      Pairs.check_solar_eclipse_visibility o jd a b = Ok (true, m, t)) <->
   (exists flag attrs rest m,
      sol_eclipse_how o jd a b
      = Ok (PTuple (PNum flag :: PTuple attrs :: rest)) /\
      0 <= flag /\ reported_magnitude attrs m /\ 1 # 1000 < m))
  /\
  (Final.visible o solar jd (a, b) = Ok true <->
   (exists flag fraction attrs rest,
      sol_eclipse_how o jd a b
      = Ok (PTuple (PNum flag :: PTuple (PNum fraction :: attrs) :: rest)) /\
      0 < flag /\ 1 # 1000 < fraction)).
Proof.
  split; [|apply final_solar_visible].
  split.
  - intros (m & t & H).
    destruct (pairs_solar_check_cases o jd a b)
      as [(r & Hatt & Hr) | (_ & Hr)]; rewrite Hr in H; [|discriminate].
    injection H as ->. apply pairs_solar_attempt_Some in Hatt.
    destruct Hatt as (attrs & rest & Hhow & Hflag & Hmag & Hv).
    exists t, attrs, rest, m. repeat split; try assumption.
    apply Qlt_b_true. symmetry. exact Hv.
  - intros (flag & attrs & rest & m & Hhow & Hflag & Hmag & Hm).
    exists m, flag.
    assert (Hatt : Pairs.solar_attempt o jd a b = Ok (Some (true, m, flag))).
    { apply pairs_solar_attempt_Some. exists attrs, rest.
      repeat split; try assumption. symmetry. apply Qlt_b_true. exact Hm. }
    unfold Pairs.check_solar_eclipse_visibility. rewrite Hatt. reflexivity.
Qed.

(** C5 as stated fails: the oracle reports a fraction covered and a
    magnitude of one half, far above 0.001, and the checks answer "not
    visible", because find_eclipse_pairs.py first tests that the return flag
    is not negative and find_final.py that it is positive. *)
Lemma solar_not_visible_above_threshold :
  let attrs := [1 # 2; 1; 1 # 2; 0; 1 # 2] in
  let o1 := with_solar_how (fixed_answer (-1) attrs) in
  let o2 := with_solar_how (fixed_answer 0 attrs) in
  (sol_eclipse_how o1 0 0 0 = Ok (PTuple [PNum (-1); PTuple (map PNum attrs)])
   /\ 1 # 1000 < 1 # 2
   /\ Pairs.check_solar_eclipse_visibility o1 0 0 0 = Ok (false, 0, 0)) /\
  (sol_eclipse_how o2 0 0 0 = Ok (PTuple [PNum 0; PTuple (map PNum attrs)])
   /\ Final.visible o2 solar 0 (0, 0) = Ok false).
Proof.
  repeat split; reflexivity.
Qed.

Lemma set_attr_length (i : nat) (x : Q) (attrs : list pyval) :
  length (set_attr i x attrs) = length attrs.
Proof.
  revert i. induction attrs as [|a attrs IH]; intros [|i]; simpl; auto.
Qed.

Lemma nth_error_set_attr (i : nat) (x : Q) (attrs : list pyval) (j : nat) :
  nth_error (set_attr i x attrs) j
  = if Nat.eqb i j
    then option_map (fun _ => PNum x) (nth_error attrs j)
    else nth_error attrs j.
Proof.
  revert i j. induction attrs as [|a attrs IH]; intros [|i] [|j]; simpl; auto.
  - destruct (Nat.eqb i j); reflexivity.
Qed.

(** Raising one attribute raises the magnitude read off the array, or leaves
    it as it is. *)
Lemma reported_magnitude_mono (i : nat) (x y : Q) (attrs : list pyval)
    (m : Q) :
  x <= y ->
  reported_magnitude (set_attr i x attrs) m ->
  exists m', reported_magnitude (set_attr i y attrs) m' /\ m <= m'.
Proof.
  intros Hxy. unfold reported_magnitude.
  rewrite !set_attr_length, !nth_error_set_attr.
  intros [(H4 & Hm) | [(H0 & Hm) | (Hnil & ->)]].
  - destruct (Nat.eqb i 4).
    + destruct (nth_error attrs 4); [|discriminate].
      simpl in Hm. injection Hm as <-.
      exists y. split; [left; split; [assumption | reflexivity] | exact Hxy].
    + exists m. split; [left; split; assumption | lra].
  - destruct (Nat.eqb i 0).
    + destruct (nth_error attrs 0); [|discriminate].
      simpl in Hm. injection Hm as <-.
      exists y.
      split; [right; left; split; [assumption | reflexivity] | exact Hxy].
    + exists m. split; [right; left; split; assumption | lra].
  - exists 0. split; [|lra]. right. right. split; [|reflexivity].
    destruct attrs as [|a attrs]; [destruct i; reflexivity|].
    destruct i; discriminate.
Qed.

(** C8. Two answers of the oracle for the same solar event and location that
    differ in one attribute only (attribute 0 is the fraction covered,
    attribute 4 the magnitude), the second answer having the larger value:
    when the check of find_eclipse_pairs.py returns visible on the first, it
    returns visible on the second, with a magnitude that is not smaller. *)
Theorem solar_visibility_monotone (o o' : Oracle) (jd lat lon : Q)
    (flag : pyval) (attrs rest : list pyval) (i : nat) (x y m t : Q) :
  sol_eclipse_how o jd lat lon
  = Ok (PTuple (flag :: PTuple (set_attr i x attrs) :: rest)) ->
  sol_eclipse_how o' jd lat lon
  = Ok (PTuple (flag :: PTuple (set_attr i y attrs) :: rest)) ->
  x <= y ->
  Pairs.check_solar_eclipse_visibility o jd lat lon = Ok (true, m, t) ->
  exists m',
    Pairs.check_solar_eclipse_visibility o' jd lat lon = Ok (true, m', t) /\
    m <= m'.
Proof.
  intros Hhow Hhow' Hxy H.
  destruct (pairs_solar_check_cases o jd lat lon)
    as [(r & Hatt & Hr) | (_ & Hr)]; rewrite Hr in H; [|discriminate].
  injection H as ->. apply pairs_solar_attempt_Some in Hatt.
  destruct Hatt as (attrs0 & rest0 & Hhow0 & Hflag & Hmag & Hv).
  rewrite Hhow in Hhow0. injection Hhow0 as -> <- <-.
  destruct (reported_magnitude_mono i attrs Hxy Hmag) as (m' & Hmag' & Hle).
  exists m'. split; [|exact Hle].
  assert (Hatt : Pairs.solar_attempt o' jd lat lon = Ok (Some (true, m', t))).
  { apply pairs_solar_attempt_Some. exists (set_attr i y attrs), rest.
    repeat split; try assumption.
    symmetry in Hv. apply Qlt_b_true in Hv.
    symmetry. apply Qlt_b_true. lra. }
  unfold Pairs.check_solar_eclipse_visibility. rewrite Hatt. reflexivity.
Qed.

(** At the threshold itself the eclipse is not visible; the fraction covered
    goes up from 0.002 to one half and the eclipse stays visible. *)
Lemma solar_visibility_monotone_witness :
  let attrs := [PNum (1 # 1000); PNum 1] in
  let o := with_solar_how (fixed_answer 4 [2 # 1000; 1]) in
  let o' := with_solar_how (fixed_answer 4 [1 # 2; 1]) in
  Pairs.check_solar_eclipse_visibility
    (with_solar_how (fixed_answer 4 [1 # 1000; 1])) 0 0 0
  = Ok (false, 1 # 1000, 4) /\
  sol_eclipse_how o 0 0 0
  = Ok (PTuple (PNum 4 :: PTuple (set_attr 0 (2 # 1000) attrs) :: [])) /\
  sol_eclipse_how o' 0 0 0
  = Ok (PTuple (PNum 4 :: PTuple (set_attr 0 (1 # 2) attrs) :: [])) /\
  2 # 1000 <= 1 # 2 /\
  Pairs.check_solar_eclipse_visibility o 0 0 0 = Ok (true, 2 # 1000, 4) /\
  exists m',
    Pairs.check_solar_eclipse_visibility o' 0 0 0 = Ok (true, m', 4) /\
    2 # 1000 <= m'.
Proof.
  split; [reflexivity|]. split; [reflexivity|]. split; [reflexivity|].
  split; [vm_compute; discriminate|]. split; [reflexivity|].
  apply (@solar_visibility_monotone
           (with_solar_how (fixed_answer 4 [2 # 1000; 1]))
           (with_solar_how (fixed_answer 4 [1 # 2; 1]))
           0 0 0 (PNum 4) [PNum (1 # 1000); PNum 1] [] 0%nat
           (2 # 1000) (1 # 2) (2 # 1000) 4);
    try reflexivity.
  vm_compute; discriminate.
Defined.

(** The solar check of find_eclipse_pairs_grid.py is that of
    find_eclipse_pairs.py without the eclipse type. *)
Lemma grid_solar_check (o : Oracle) (jd lat lon : Q) :
  Grid.check_solar_eclipse_visibility o jd lat lon
  = r <- Pairs.check_solar_eclipse_visibility o jd lat lon ;;
    Ok (fst r).
Proof.
  unfold Grid.check_solar_eclipse_visibility, Grid.solar_attempt,
    Pairs.check_solar_eclipse_visibility, Pairs.solar_attempt.
  destruct (sol_eclipse_how o jd lat lon) as [attr|]; [|reflexivity]. simpl.
  destruct (subscript attr 0) as [a0|]; [|reflexivity]. simpl.
  destruct (py_float a0) as [flag|]; [|reflexivity]. simpl.
  destruct (Qle_bool 0 flag); [|reflexivity].
  destruct (subscript attr 1) as [a1|]; [|reflexivity]. simpl.
  destruct (py_len a1) as [n|]; [|reflexivity]. simpl.
  destruct (if (0 <? n)%nat then subscript a1 0 else Ok (PNum 0))
    as [fraction|]; [|reflexivity]. simpl.
  destruct (if (4 <? n)%nat then subscript a1 4 else Ok fraction)
    as [magnitude|]; [|reflexivity]. simpl.
  destruct (py_float magnitude) as [m|]; reflexivity.
Qed.

(** C9, as the code has it.  Whatever the oracle does,
    [check_solar_eclipse_visibility] returns a triple and raises nothing.
    The magnitude exceeds 0.001 when the triple says visible, and is negative
    only when the oracle itself reported that negative magnitude.  The triple
    is (False, 0, 0) when the oracle raises, when reading its answer raises,
    and when its return flag is negative.  The check of
    find_eclipse_pairs_grid.py returns the first two components of the same
    triple. *)
Theorem solar_check_total (o : Oracle) (jd lat lon : Q) :
  exists visible magnitude eclipse_type,
    Pairs.check_solar_eclipse_visibility o jd lat lon
    = Ok (visible, magnitude, eclipse_type) /\
    Grid.check_solar_eclipse_visibility o jd lat lon
    = Ok (visible, magnitude) /\
    (visible = true -> 1 # 1000 < magnitude) /\
    (magnitude < 0 ->
     exists attrs rest,
       sol_eclipse_how o jd lat lon
       = Ok (PTuple (PNum eclipse_type :: PTuple attrs :: rest)) /\
       reported_magnitude attrs magnitude) /\
    (sol_eclipse_how o jd lat lon = Raise ->
     (visible, magnitude, eclipse_type) = (false, 0, 0)) /\
    (Pairs.solar_attempt o jd lat lon = Raise ->
     (visible, magnitude, eclipse_type) = (false, 0, 0)) /\
    (forall flag rest,
       sol_eclipse_how o jd lat lon = Ok (PTuple (PNum flag :: rest)) ->
       flag < 0 ->
       (visible, magnitude, eclipse_type) = (false, 0, 0)).
Proof.
  destruct (pairs_solar_check_cases o jd lat lon)
    as [([[v m] t] & Hatt & Hr) | (Hfail & Hr)].
  - exists v, m, t. split; [exact Hr|].
    split; [rewrite grid_solar_check, Hr; reflexivity|].
    assert (Hatt' := Hatt). apply pairs_solar_attempt_Some in Hatt'.
    destruct Hatt' as (attrs & rest & Hhow & Hflag & Hmag & Hv).
    split; [|split; [|split; [|split]]].
    + intros ->. apply Qlt_b_true. symmetry. exact Hv.
    + intros _. exists attrs, rest. split; assumption.
    + intros Hraise. rewrite Hraise in Hhow. discriminate.
    + intros Hraise. rewrite Hraise in Hatt. discriminate.
    + intros flag rest' Hhow' Hneg. rewrite Hhow' in Hhow.
      injection Hhow as -> _. lra.
  - exists false, 0, 0. split; [exact Hr|].
    split; [rewrite grid_solar_check, Hr; reflexivity|].
    split; [discriminate|]. split; [intros H; lra|]. auto.
Qed.

(** C9 as stated fails: the magnitude of the returned triple is the number
    the oracle reported, and the check does not clamp it. *)
Lemma solar_check_negative_magnitude :
  Pairs.check_solar_eclipse_visibility
    (with_solar_how (fixed_answer 4 [- (1 # 2)])) 0 0 0
  = Ok (false, - (1 # 2), 4) /\
  - (1 # 2) < 0.
Proof.
  split; reflexivity.
Qed.

(** ** The lunar visibility checks *)

(** When the lunar check of find_final.py sees the eclipse. *)
Lemma final_lunar_visible (o : Oracle) (jd lon lat : Q) :
  Final.visible o lunar jd (lon, lat) = Ok true <->
  exists flag attrs rest,
    lun_eclipse_how o jd lon lat
    = Ok (PTuple (PNum flag :: PTuple attrs :: rest)) /\
    0 < flag /\
    ((length attrs <= 5)%nat \/
     exists moon_alt, nth_error attrs 5 = Some (PNum moon_alt) /\ 0 < moon_alt).
Proof.
  unfold Final.visible, Final.attempt, try_except. split.
  - destruct (lun_eclipse_how o jd lon lat) as [attr|]; [|discriminate].
    simpl.
    destruct (subscript attr 0) as [a0|] eqn:Ha0; [|discriminate]. simpl.
    destruct (py_float a0) as [flag|] eqn:Hflag; [|discriminate]. simpl.
    destruct (Qlt_b 0 flag) eqn:Hpos; [|discriminate].
    destruct (subscript attr 1) as [a1|] eqn:Ha1; [|discriminate]. simpl.
    destruct (py_len a1) as [n|] eqn:Hn; [|discriminate]. simpl.
    apply py_float_Ok in Hflag. subst a0.
    apply py_len_Ok in Hn as (attrs & -> & <-).
    apply subscript_Ok in Ha0 as (items & -> & Ha0).
    destruct items as [|x [|y rest]]; try discriminate.
    simpl in Ha0, Ha1. injection Ha0 as ->. injection Ha1 as ->.
    apply Qlt_b_true in Hpos.
    destruct (5 <? length attrs)%nat eqn:H5.
    + destruct (subscript (PTuple attrs) 5) as [a15|] eqn:Ha15;
        [|discriminate]. simpl.
      destruct (py_float a15) as [moon_alt|] eqn:Halt; [|discriminate]. simpl.
      intros H. injection H as H. apply Qlt_b_true in H.
      apply py_float_Ok in Halt. subst a15.
      apply subscript_Ok in Ha15 as (items & Heq & Ha15).
      injection Heq as <-.
      exists flag, attrs, rest. split; [reflexivity|]. split; [assumption|].
      right. exists moon_alt. split; assumption.
    + intros _. apply Nat.ltb_ge in H5.
      exists flag, attrs, rest. split; [reflexivity|]. split; [assumption|].
      left. assumption.
  - intros (flag & attrs & rest & -> & Hflag & Halt).
    apply Qlt_b_true in Hflag.
    destruct Halt as [Hshort | (moon_alt & Hnth & Halt)].
    + destruct attrs as [|x0 [|x1 [|x2 [|x3 [|x4 [|x5 more]]]]]];
        simpl in Hshort; try lia; simpl; rewrite Hflag; reflexivity.
    + destruct attrs as [|x0 [|x1 [|x2 [|x3 [|x4 [|x5 more]]]]]];
        try discriminate.
      simpl in Hnth. injection Hnth as ->.
      apply Qlt_b_true in Halt. simpl. rewrite Hflag. simpl.
      rewrite Halt. reflexivity.
Qed.

(** What the lunar check of find_eclipse_pairs.py needs to see the eclipse:
    a sidereal time and a solar longitude whose hour angle, brought into
    (-180, 180], is more than 60 degrees away from 0. *)
Lemma pairs_lunar_visible (o : Oracle) (jd lat lon : Q) :
  Pairs.check_lunar_eclipse_visibility o jd lat lon = Ok true ->
  exists sun_result s sun_ra,
    calc_ut o jd SUN = Ok sun_result /\
    Pairs.lon_of sun_result = Ok (PNum sun_ra) /\
    sidtime o jd = Ok (PNum s) /\
    let hour_angle := py_mod (s * 15 + lon - sun_ra) 360 in
    60 < Qabs (if Qlt_b 180 hour_angle then hour_angle - 360 else hour_angle).
Proof.
  unfold Pairs.check_lunar_eclipse_visibility, try_except.
  destruct (Pairs.lunar_attempt o jd lat lon) as [b|] eqn:H; [|discriminate].
  intros Hb. injection Hb as ->. unfold Pairs.lunar_attempt in H.
  apply bind_Ok in H as (sun_result & Hsun & H).
  apply bind_Ok in H as (moon_result & Hmoon & H).
  apply bind_Ok in H as (sun_lon & Hsl & H).
  apply bind_Ok in H as (sun_lat & _ & H).
  apply bind_Ok in H as (moon_lon & _ & H).
  apply bind_Ok in H as (moon_lat & _ & H).
  apply bind_Ok in H as (ecl_nut & _ & H).
  apply bind_Ok in H as (e1 & _ & H).
  apply bind_Ok in H as (e12 & _ & H).
  apply bind_Ok in H as (eps_nutlo & _ & H).
  apply bind_Ok in H as (sid & Hsid & H).
  apply bind_Ok in H as (s & Hs & H).
  apply bind_Ok in H as (sun_ra & Hra & H).
  injection H as H. apply Qlt_b_true in H.
  apply py_float_Ok in Hs, Hra. subst sid sun_lon.
  exists sun_result, s, sun_ra. repeat split; assumption.
Qed.

(** C4, as the code has it.  The lunar check of find_final.py returns
    visible exactly when [lun_eclipse_how] answers with a positive return
    flag and either reports at most five attributes (no altitude, the moon
    is assumed to be up) or reports a Moon altitude, attribute 5, above 0.
    The lunar check of find_eclipse_pairs.py is a heuristic on the hour
    angle of the Sun: it never asks for the Moon's altitude, so its answer
    is the same for two oracles that agree on [calc_ut] and [sidtime], and
    it returns visible only when the hour angle is more than 60 degrees. *)
Theorem lunar_visible_as_coded (o : Oracle) (jd a b : Q) :
  (Final.visible o lunar jd (a, b) = Ok true <->
   exists flag attrs rest,
     lun_eclipse_how o jd a b
     = Ok (PTuple (PNum flag :: PTuple attrs :: rest)) /\
     0 < flag /\
     ((length attrs <= 5)%nat \/
      exists moon_alt,
        nth_error attrs 5 = Some (PNum moon_alt) /\ 0 < moon_alt))
  /\
  (forall o',
     (forall planet, calc_ut o jd planet = calc_ut o' jd planet) ->
     sidtime o jd = sidtime o' jd ->
     Pairs.check_lunar_eclipse_visibility o jd a b
     = Pairs.check_lunar_eclipse_visibility o' jd a b)
  /\
  (Pairs.check_lunar_eclipse_visibility o jd a b = Ok true ->
   exists sun_result s sun_ra,
     calc_ut o jd SUN = Ok sun_result /\
     Pairs.lon_of sun_result = Ok (PNum sun_ra) /\
     sidtime o jd = Ok (PNum s) /\
     let hour_angle := py_mod (s * 15 + b - sun_ra) 360 in
     60 < Qabs (if Qlt_b 180 hour_angle then hour_angle - 360
                else hour_angle)).
Proof.
  split; [apply final_lunar_visible|]. split; [|apply pairs_lunar_visible].
  intros o' Hcalc Hsid.
  unfold Pairs.check_lunar_eclipse_visibility, Pairs.lunar_attempt.
  rewrite !Hcalc, Hsid. reflexivity.
Qed.

(** C4 as stated fails.  For find_final.py: the Moon is 30 degrees above the
    horizon and the check answers "not visible" (return flag 0); the oracle
    reports no altitude at all and the check answers "visible".  For
    find_eclipse_pairs.py: the Moon is 30 degrees below the horizon and the
    check answers "visible". *)
Lemma lunar_visibility_not_altitude :
  let up := with_lunar_how (fixed_answer 0 [1; 1; 0; 0; 0; 30; 0]) in
  let short := with_lunar_how (fixed_answer 4 [1; 1]) in
  let down := with_lunar_how (fixed_answer 4 [1; 1; 0; 0; 0; -30; 0]) in
  (exists attr,
     lun_eclipse_how up 0 0 0 = Ok attr /\ moon_altitude attr = Some 30 /\
     0 < 30 /\ Final.visible up lunar 0 (0, 0) = Ok false) /\
  (exists attr,
     lun_eclipse_how short 0 0 0 = Ok attr /\ moon_altitude attr = None /\
     Final.visible short lunar 0 (0, 0) = Ok true) /\
  (exists attr,
     lun_eclipse_how down 0 0 0 = Ok attr /\ moon_altitude attr = Some (-30) /\
     -30 < 0 /\ Pairs.check_lunar_eclipse_visibility down 0 0 0 = Ok true).
Proof.
  split; [|split]; eexists; repeat split; reflexivity.
Qed.

(** ** The pair finder *)

Lemma time_sorted_nth (eclipses : list event) :
  time_sorted eclipses ->
  forall i j e1 e2,
    (i < j)%nat ->
    nth_error eclipses i = Some e1 -> nth_error eclipses j = Some e2 ->
    snd e1 <= snd e2.
Proof.
  induction 1 as [|e l Hl IH Hall]; intros i j e1 e2 Hij H1 H2.
  - destruct i; discriminate.
  - destruct j as [|j]; [lia|]. simpl in H2. destruct i as [|i].
    + simpl in H1. injection H1 as <-.
      rewrite Forall_forall in Hall. apply Hall.
      eapply nth_error_In; eassumption.
    + simpl in H1. apply (IH i j e1 e2); [lia | assumption | assumption].
Qed.

Lemma insert_by_time_sorted (e : event) (l : list event) :
  time_sorted l -> time_sorted (insert_by_time e l).
Proof.
  unfold time_sorted. induction 1 as [|x l Hl IH Hall]; simpl.
  - repeat constructor.
  - destruct (Qle_bool (snd e) (snd x)) eqn:Hle.
    + apply Qle_bool_iff in Hle. constructor; [constructor; assumption|].
      constructor; [assumption|].
      eapply Forall_impl; [|exact Hall]. simpl. intros a Ha. lra.
    + apply Qle_bool_false in Hle. constructor; [assumption|].
      clear IH Hl. induction l as [|y l IHl]; simpl.
      * constructor; [lra | constructor].
      * inversion Hall; subst.
        destruct (Qle_bool (snd e) (snd y));
          constructor; try lra; auto.
Qed.

(** The list the pair finder is run on is in ascending order of time. *)
Lemma sort_by_time_sorted (l : list event) : time_sorted (sort_by_time l).
Proof.
  induction l as [|e l IH]; simpl.
  - constructor.
  - apply insert_by_time_sorted. exact IH.
Qed.

Section PairSearchFacts.

Variable L : Type.
Variable visible : kind -> Q -> L -> Py bool.
Variable first_match : bool.
Variable julian_to_date : Q -> pyval.
Variable max_gap_days : Q.

Local Abbreviation location_loop :=
  (location_loop visible first_match julian_to_date).
Local Abbreviation inner_loop :=
  (inner_loop visible first_match julian_to_date max_gap_days).
Local Abbreviation outer_loop :=
  (outer_loop visible first_match julian_to_date max_gap_days).
Local Abbreviation make_pair := (make_pair julian_to_date).

(** Every pair the location loop appends is the pair of the two events at
    a location of the grid. *)
Lemma location_loop_found (e1 e2 : event) (locs : list L) :
  forall l,
    location_loop e1 e2 locs = Ok l ->
    Forall (fun p => exists loc, In loc locs /\ p = make_pair loc e1 e2) l.
Proof.
  induction locs as [|loc locs IH]; intros l H; simpl in H.
  - injection H as <-. constructor.
  - apply bind_Ok in H as (v1 & _ & H).
    apply bind_Ok in H as (v2 & _ & H).
    assert (Hweak : forall l',
               Forall (fun p => exists loc',
                           In loc' locs /\ p = make_pair loc' e1 e2) l' ->
               Forall (fun p => exists loc',
                           In loc' (loc :: locs) /\
                           p = make_pair loc' e1 e2) l').
    { intros l'. apply Forall_impl. intros p (loc' & Hin & ->).
      exists loc'. split; [right; assumption | reflexivity]. }
    destruct (v1 && v2).
    + destruct first_match.
      * injection H as <-. constructor; [|constructor].
        exists loc. split; [left|]; reflexivity.
      * apply bind_Ok in H as (rest & Hrest & H). injection H as <-.
        constructor; [exists loc; split; [left|]; reflexivity|].
        apply Hweak, IH, Hrest.
    + apply Hweak, IH, H.
Qed.

Lemma inner_loop_entries (eclipses : list event) (locs : list L) (i : nat)
    (js : list nat) :
  forall log,
    inner_loop eclipses locs i js = Ok log ->
    Forall (fun ev => first_index ev = i /\ In (second_index ev) js /\
                      entry_ok julian_to_date max_gap_days eclipses locs ev)
           log.
Proof.
  induction js as [|j js IH]; intros log H; simpl in H.
  - injection H as <-. constructor.
  - apply bind_Ok in H as (e1 & He1 & H).
    apply bind_Ok in H as (e2 & He2 & H).
    destruct (Qlt_b max_gap_days (snd e2 - snd e1)) eqn:Hgap.
    + injection H as <-. constructor.
    + apply bind_Ok in H as (here & Hhere & H).
      apply bind_Ok in H as (rest & Hrest & H). injection H as <-.
      apply Qlt_b_false in Hgap.
      unfold item in He1, He2.
      destruct (nth_error eclipses i) eqn:Hi; [|discriminate].
      destruct (nth_error eclipses j) eqn:Hj; [|discriminate].
      injection He1 as ->. injection He2 as ->.
      constructor.
      * simpl. split; [reflexivity|]. split; [left; reflexivity|].
        exists e1, e2. simpl. repeat split; try assumption.
        eapply location_loop_found; eassumption.
      * eapply Forall_impl; [|apply IH; exact Hrest].
        simpl. intros ev (H1 & H2 & H3). auto.
Qed.

(** Once the gap test fails at [j] the loop is left: what was evaluated
    lies before [j]. *)
Lemma inner_loop_break (eclipses : list event) (locs : list L) (i j : nat)
    (e1 e2 : event) (js1 js2 : list nat) :
  nth_error eclipses i = Some e1 ->
  nth_error eclipses j = Some e2 ->
  max_gap_days < snd e2 - snd e1 ->
  forall log,
    inner_loop eclipses locs i (js1 ++ j :: js2) = Ok log ->
    Forall (fun ev => In (second_index ev) js1) log.
Proof.
  intros Hi Hj Hgap. induction js1 as [|j1 js1 IH]; intros log H.
  - simpl in H. unfold item in H. rewrite Hi, Hj in H. simpl in H.
    apply Qlt_b_true in Hgap. rewrite Hgap in H.
    injection H as <-. constructor.
  - simpl in H.
    apply bind_Ok in H as (e1' & _ & H).
    apply bind_Ok in H as (e2' & _ & H).
    destruct (Qlt_b max_gap_days (snd e2' - snd e1')).
    + injection H as <-. constructor.
    + apply bind_Ok in H as (here & _ & H).
      apply bind_Ok in H as (rest & Hrest & H). injection H as <-.
      constructor; [left; reflexivity|].
      eapply Forall_impl; [|apply IH; exact Hrest].
      simpl. intros ev Hin. right. exact Hin.
Qed.

Hypothesis visible_total : forall k jd loc, exists b, visible k jd loc = Ok b.

Lemma location_loop_total (e1 e2 : event) (locs : list L) :
  exists l, location_loop e1 e2 locs = Ok l.
Proof using visible_total.
  induction locs as [|loc locs (l & IH)]; simpl; [eauto|].
  destruct (visible_total (fst e1) (snd e1) loc) as (v1 & ->).
  destruct (visible_total (fst e2) (snd e2) loc) as (v2 & ->).
  simpl. destruct (v1 && v2); [|eauto].
  destruct first_match; [eauto|]. rewrite IH. simpl. eauto.
Qed.

Lemma inner_loop_total (eclipses : list event) (locs : list L) (i : nat)
    (js : list nat) :
  (i < length eclipses)%nat ->
  Forall (fun j => (j < length eclipses)%nat) js ->
  exists log, inner_loop eclipses locs i js = Ok log.
Proof using visible_total.
  intros Hi Hjs. induction Hjs as [|j js Hj _ (log & IH)]; simpl; [eauto|].
  unfold item.
  destruct (nth_error eclipses i) as [e1|] eqn:E1;
    [|apply nth_error_None in E1; lia].
  destruct (nth_error eclipses j) as [e2|] eqn:E2;
    [|apply nth_error_None in E2; lia].
  simpl. destruct (Qlt_b max_gap_days (snd e2 - snd e1)); [eauto|].
  destruct (location_loop_total e1 e2 locs) as (here & ->).
  simpl. rewrite IH. simpl. eauto.
Qed.

Lemma outer_loop_total (eclipses : list event) (locs : list L)
    (indices : list nat) :
  Forall (fun i => (i < length eclipses)%nat) indices ->
  exists log, outer_loop eclipses locs indices = Ok log.
Proof using visible_total.
  induction 1 as [|i indices Hi _ (log & IH)]; simpl; [eauto|].
  destruct (inner_loop_total eclipses locs (i := i)
              (js := seq (S i) (length eclipses - S i)) Hi)
    as (here & ->).
  { apply Forall_forall. intros j Hj. apply in_seq in Hj. lia. }
  simpl. rewrite IH. simpl. eauto.
Qed.

(** The search raises nothing when the visibility test raises nothing. *)
Lemma evaluate_pairs_total (eclipses : list event) (locs : list L) :
  exists log,
    evaluate_pairs visible first_match julian_to_date max_gap_days
      eclipses locs = Ok log.
Proof using visible_total.
  apply outer_loop_total. apply Forall_forall.
  intros i Hi. apply in_seq in Hi. lia.
Qed.

End PairSearchFacts.

Section PairSearchLog.

Variable L : Type.
Variable visible : kind -> Q -> L -> Py bool.
Variable first_match : bool.
Variable julian_to_date : Q -> pyval.
Variable max_gap_days : Q.

Local Abbreviation inner_loop :=
  (inner_loop visible first_match julian_to_date max_gap_days).
Local Abbreviation outer_loop :=
  (outer_loop visible first_match julian_to_date max_gap_days).
Local Abbreviation evaluate_pairs :=
  (evaluate_pairs visible first_match julian_to_date max_gap_days).

(** Every entry of the log is an index pair (i, j) with i < j whose gap
    passed the test. *)
Lemma outer_loop_entries (eclipses : list event) (locs : list L)
    (indices : list nat) :
  forall log,
    outer_loop eclipses locs indices = Ok log ->
    Forall (fun ev => (first_index ev < second_index ev)%nat /\
                      entry_ok julian_to_date max_gap_days eclipses locs ev)
           log.
Proof.
  induction indices as [|i indices IH]; intros log H; simpl in H.
  - injection H as <-. constructor.
  - apply bind_Ok in H as (here & Hhere & H).
    apply bind_Ok in H as (rest & Hrest & H). injection H as <-.
    apply Forall_app. split; [|apply IH; exact Hrest].
    eapply Forall_impl; [|eapply inner_loop_entries; exact Hhere].
    simpl. intros ev (Hi & Hj & Hok). split; [|exact Hok].
    apply in_seq in Hj. lia.
Qed.

(** The gap test failing at (i, j) leaves nothing at or after j in the log
    for this i. *)
Lemma outer_loop_break (eclipses : list event) (locs : list L) (i j : nat)
    (e1 e2 : event) :
  nth_error eclipses i = Some e1 ->
  nth_error eclipses j = Some e2 ->
  (i < j)%nat ->
  max_gap_days < snd e2 - snd e1 ->
  forall indices log,
    outer_loop eclipses locs indices = Ok log ->
    Forall (fun ev => first_index ev = i -> (second_index ev < j)%nat) log.
Proof.
  intros Hi Hj Hij Hgap.
  assert (Hlen : (j < length eclipses)%nat)
    by (apply nth_error_Some; congruence).
  induction indices as [|i' indices IH]; intros log H; simpl in H.
  - injection H as <-. constructor.
  - apply bind_Ok in H as (here & Hhere & H).
    apply bind_Ok in H as (rest & Hrest & H). injection H as <-.
    apply Forall_app. split; [|apply IH; exact Hrest].
    destruct (Nat.eq_dec i' i) as [->|Hne].
    + replace (length eclipses - S i)%nat
        with ((j - S i) + S (length eclipses - S j))%nat in Hhere by lia.
      rewrite seq_app in Hhere. simpl in Hhere.
      replace (S (i + (j - S i)))%nat with j in Hhere by lia.
      eapply Forall_impl;
        [|eapply inner_loop_break; [exact Hi | exact Hj | exact Hgap
                                    | exact Hhere]].
      simpl. intros ev Hin _. apply in_seq in Hin. lia.
    + eapply Forall_impl; [|eapply inner_loop_entries; exact Hhere].
      simpl. intros ev (Hfirst & _) Heq. congruence.
Qed.

(** On a list in ascending order of time, the gap a found pair records is
    the difference of the times of its two events, is not negative and is
    at most the threshold. *)
Lemma found_pairs_gap (eclipses : list event) (locs : list L) :
  time_sorted eclipses ->
  forall log,
    evaluate_pairs eclipses locs = Ok log ->
    forall p,
      In p (flat_map (@found L) log) ->
      gap_days p = jd2 p - jd1 p /\
      0 <= gap_days p /\
      gap_days p <= max_gap_days /\
      exists i j,
        (i < j)%nat /\
        nth_error eclipses i = Some (type1 p, jd1 p) /\
        nth_error eclipses j = Some (type2 p, jd2 p).
Proof.
  intros Hsorted log Hlog p Hp.
  apply in_flat_map in Hp as (ev & Hev & Hp).
  apply outer_loop_entries in Hlog. rewrite Forall_forall in Hlog.
  destruct (Hlog ev Hev) as (Hij & e1 & e2 & H1 & H2 & Hgap & Hfound).
  rewrite Forall_forall in Hfound.
  destruct (Hfound p Hp) as (loc & _ & ->). simpl.
  assert (Hle := time_sorted_nth Hsorted Hij H1 H2).
  split; [reflexivity|]. split; [lra|]. split; [exact Hgap|].
  exists (first_index ev), (second_index ev).
  destruct e1, e2. auto.
Qed.

End PairSearchLog.

(** None of the visibility tests of the four scripts raises. *)
Lemma try_except_total {A : Type} (body : Py A) (a : A) :
  exists r, try_except body (Ok a) = Ok r.
Proof.
  destruct body; simpl; eauto.
Qed.

Lemma pairs_visible_total (o : Oracle) (k : kind) (jd : Q) (loc : Pairs.Loc) :
  exists b, Pairs.visible o k jd loc = Ok b.
Proof.
  destruct loc as [[loc_name lat] lon]. destruct k; simpl.
  - destruct (pairs_solar_check_cases o jd lat lon)
      as [([[v m] t] & _ & ->) | (_ & ->)]; simpl; eauto.
  - apply try_except_total.
Qed.

Lemma grid_visible_total (o : Oracle) (k : kind) (jd : Q) (loc : Grid.Loc) :
  exists b, Grid.visible o k jd loc = Ok b.
Proof.
  destruct loc as [lat lon]. destruct k; simpl.
  - unfold Grid.check_solar_eclipse_visibility.
    destruct (Grid.solar_attempt o jd lat lon) as [[[v m]|]|]; simpl; eauto.
  - apply try_except_total.
Qed.

Lemma final_visible_total (o : Oracle) (k : kind) (jd : Q) (loc : Final.Loc) :
  exists b, Final.visible o k jd loc = Ok b.
Proof.
  destruct loc as [lon lat]. apply try_except_total.
Qed.

Lemma fixed_visible_total (o : Oracle) (k : kind) (jd : Q) (loc : Fixed.Loc) :
  exists b, Fixed.visible o k jd loc = Ok b.
Proof.
  destruct loc as [lat lon]. destruct k; apply try_except_total.
Qed.

(** The list of found pairs is what the entries of the log appended. *)
Lemma find_pairs_of_log {L : Type} (visible : kind -> Q -> L -> Py bool)
    (first_match : bool) (julian_to_date : Q -> pyval) (max_gap_days : Q)
    (eclipses : list event) (locs : list L) (log : list (Evaluated L)) :
  evaluate_pairs visible first_match julian_to_date max_gap_days
    eclipses locs = Ok log ->
  find_pairs visible first_match julian_to_date max_gap_days eclipses locs
  = Ok (flat_map (@found L) log).
Proof.
  unfold find_pairs. intros ->. reflexivity.
Qed.

(** C1. On every list of events in ascending order of time, the pair search
    of find_eclipse_pairs.py (threshold [max_gap_days]) and that of
    find_final.py (threshold 15) return, and each pair they emit is made of
    the events at two indices i < j and records a gap that equals the time
    of the second event minus the time of the first, is not negative and is
    at most the threshold. *)
Theorem emitted_gap_bounds (o : Oracle) (max_gap_days : Q)
    (eclipses : list event) (test_locations : list Pairs.Loc)
    (grid_locs : list Final.Loc) :
  time_sorted eclipses ->
  (exists pairs,
     Pairs.find_pairs o max_gap_days eclipses test_locations = Ok pairs /\
     forall p,
       In p pairs ->
       gap_days p = jd2 p - jd1 p /\
       0 <= gap_days p /\
       gap_days p <= max_gap_days /\
       exists i j,
         (i < j)%nat /\
         nth_error eclipses i = Some (type1 p, jd1 p) /\
         nth_error eclipses j = Some (type2 p, jd2 p)) /\
  (exists pairs,
     Final.find_pairs o eclipses grid_locs = Ok pairs /\
     forall p,
       In p pairs ->
       gap_days p = jd2 p - jd1 p /\
       0 <= gap_days p /\
       gap_days p <= 15 /\
       exists i j,
         (i < j)%nat /\
         nth_error eclipses i = Some (type1 p, jd1 p) /\
         nth_error eclipses j = Some (type2 p, jd2 p)).
Proof.
  intros Hsorted. split.
  - destruct (@evaluate_pairs_total _ (Pairs.visible o) false (revjul o)
                max_gap_days (pairs_visible_total o) eclipses test_locations)
      as (log & Hlog).
    exists (flat_map (@found Pairs.Loc) log).
    split; [apply find_pairs_of_log; exact Hlog|].
    eapply found_pairs_gap; eassumption.
  - destruct (@evaluate_pairs_total _ (Final.visible o) true (revjul o) 15
                (final_visible_total o) eclipses grid_locs)
      as (log & Hlog).
    exists (flat_map (@found Final.Loc) log).
    split; [apply find_pairs_of_log; exact Hlog|].
    eapply found_pairs_gap; eassumption.
Qed.

Lemma sample_events_sorted : time_sorted sample_events.
Proof.
  unfold time_sorted, sample_events.
  repeat (constructor; [|repeat (constructor; [vm_compute; discriminate|])]);
    constructor.
Qed.

Lemma emitted_gap_bounds_witness :
  time_sorted sample_events /\
  (exists pairs,
     Pairs.find_pairs sample_oracle 15 sample_events sample_locations
     = Ok pairs /\
     length pairs = 6%nat /\
     forall p,
       In p pairs ->
       gap_days p = jd2 p - jd1 p /\
       0 <= gap_days p /\
       gap_days p <= 15 /\
       exists i j,
         (i < j)%nat /\
         nth_error sample_events i = Some (type1 p, jd1 p) /\
         nth_error sample_events j = Some (type2 p, jd2 p)).
Proof.
  split; [exact sample_events_sorted|].
  destruct (proj1 (emitted_gap_bounds sample_oracle 15 sample_locations
                     sample_grid sample_events_sorted))
    as (pairs & Hpairs & Hgap).
  exists pairs. split; [exact Hpairs|]. split; [|exact Hgap].
  vm_compute in Hpairs. injection Hpairs as <-. reflexivity.
Defined.

(** C2. For a fixed outer index i, once the gap of some inner index j exceeds
    the threshold, the inner loop has been left at j or before: the searches
    of find_eclipse_pairs.py and find_final.py return, and their logs hold no
    index pair (i, j') with j' >= j, so no such pair was evaluated and none
    is among the found pairs.  (This holds for every list, in ascending order
    of time or not.) *)
Theorem gap_break_prunes (o : Oracle) (max_gap_days : Q)
    (eclipses : list event) (test_locations : list Pairs.Loc)
    (grid_locs : list Final.Loc) (i j : nat) (e1 e2 : event) :
  nth_error eclipses i = Some e1 ->
  nth_error eclipses j = Some e2 ->
  (i < j)%nat ->
  (max_gap_days < snd e2 - snd e1 ->
   exists log,
     Pairs.evaluate_pairs o max_gap_days eclipses test_locations = Ok log /\
     Pairs.find_pairs o max_gap_days eclipses test_locations
     = Ok (flat_map (@found Pairs.Loc) log) /\
     forall ev,
       In ev log -> first_index ev = i -> (second_index ev < j)%nat) /\
  (15 < snd e2 - snd e1 ->
   exists log,
     Final.evaluate_pairs o eclipses grid_locs = Ok log /\
     Final.find_pairs o eclipses grid_locs
     = Ok (flat_map (@found Final.Loc) log) /\
     forall ev,
       In ev log -> first_index ev = i -> (second_index ev < j)%nat).
Proof.
  intros Hi Hj Hij. split; intros Hgap.
  - destruct (@evaluate_pairs_total _ (Pairs.visible o) false (revjul o)
                max_gap_days (pairs_visible_total o) eclipses test_locations)
      as (log & Hlog).
    exists log. split; [exact Hlog|].
    split; [apply find_pairs_of_log; exact Hlog|].
    assert (HF : Forall (fun ev => first_index ev = i ->
                                   (second_index ev < j)%nat) log).
    { eapply outer_loop_break;
        [exact Hi | exact Hj | exact Hij | exact Hgap | exact Hlog]. }
    rewrite Forall_forall in HF. exact HF.
  - destruct (@evaluate_pairs_total _ (Final.visible o) true (revjul o) 15
                (final_visible_total o) eclipses grid_locs)
      as (log & Hlog).
    exists log. split; [exact Hlog|].
    split; [apply find_pairs_of_log; exact Hlog|].
    assert (HF : Forall (fun ev => first_index ev = i ->
                                   (second_index ev < j)%nat) log).
    { eapply outer_loop_break;
        [exact Hi | exact Hj | exact Hij | exact Hgap | exact Hlog]. }
    rewrite Forall_forall in HF. exact HF.
Qed.

Lemma gap_break_prunes_witness :
  nth_error sample_events 0 = Some (solar, 10) /\
  nth_error sample_events 2 = Some (solar, 40) /\
  (0 < 2)%nat /\
  15 < 40 - 10 /\
  (exists log,
     Final.evaluate_pairs sample_oracle sample_events sample_grid = Ok log /\
     map (fun ev => (first_index ev, second_index ev)) log
     = [(0, 1); (1, 2); (3, 4)]%nat /\
     forall ev,
       In ev log -> first_index ev = 0%nat -> (second_index ev < 2)%nat).
Proof.
  split; [reflexivity|]. split; [reflexivity|]. split; [lia|].
  split; [reflexivity|].
  destruct (proj2 (@gap_break_prunes sample_oracle 15 sample_events
                     sample_locations sample_grid 0 2 (solar, 10) (solar, 40)
                     eq_refl eq_refl (Nat.lt_0_succ 1)) eq_refl)
    as (log & Hlog & _ & Hprune).
  exists log. split; [exact Hlog|]. split; [|exact Hprune].
  vm_compute in Hlog. injection Hlog as <-. reflexivity.
Defined.

(** The scenarios of the specification: a solar eclipse and a lunar eclipse
    ten days later, one location that sees both, give one pair with gap 10;
    sixteen days apart they give none. *)
Example scenario_gap_ten :
  exists p,
    Final.find_pairs sample_oracle [(solar, 100); (lunar, 110)] [(0, 0)]
    = Ok [p] /\
    gap_days p == 10 /\ location p = (0, 0).
Proof.
  eexists. split; [reflexivity|]. split; reflexivity.
Qed.

Example scenario_gap_sixteen :
  Final.find_pairs sample_oracle [(solar, 100); (lunar, 116)] [(0, 0)]
  = Ok [].
Proof.
  reflexivity.
Qed.

(** ** Errors of the visibility tests *)

(** C6, as the code has it.  In none of the four scripts does an error of a
    visibility test leave the test: each test returns a boolean whatever the
    oracle does, and the pair search always returns its list.  When the
    statements inside [try] raise (the oracle call raises, or reading its
    answer does), the combination counts as not visible for solar events in
    all four scripts and for lunar events in find_eclipse_pairs.py and
    find_final.py; for lunar events in find_eclipse_pairs_grid.py and
    find_pairs_fixed.py it counts as visible. *)
Theorem visibility_errors_recovered (o : Oracle) :
  ((forall max_gap_days eclipses locs,
      exists pairs, Pairs.find_pairs o max_gap_days eclipses locs = Ok pairs)
   /\ (forall eclipses locs,
         exists pairs, Grid.find_pairs o eclipses locs = Ok pairs)
   /\ (forall eclipses locs,
         exists pairs, Fixed.find_pairs o eclipses locs = Ok pairs)
   /\ (forall eclipses locs,
         exists pairs, Final.find_pairs o eclipses locs = Ok pairs))
  /\
  ((forall jd name lat lon,
      Pairs.solar_attempt o jd lat lon = Raise ->
      Pairs.visible o solar jd (name, lat, lon) = Ok false)
   /\ (forall jd name lat lon,
         Pairs.lunar_attempt o jd lat lon = Raise ->
         Pairs.visible o lunar jd (name, lat, lon) = Ok false)
   /\ (forall jd lat lon,
         Grid.solar_attempt o jd lat lon = Raise ->
         Grid.visible o solar jd (lat, lon) = Ok false)
   /\ (forall jd lat lon,
         Fixed.solar_attempt o jd lon lat = Raise ->
         Fixed.visible o solar jd (lat, lon) = Ok false)
   /\ (forall k jd lon lat,
         Final.attempt o k jd lon lat = Raise ->
         Final.visible o k jd (lon, lat) = Ok false))
  /\
  ((forall jd lat lon,
      Grid.lunar_attempt o jd lat lon = Raise ->
      Grid.visible o lunar jd (lat, lon) = Ok true)
   /\ (forall jd lat lon,
         Fixed.lunar_attempt o jd lon lat = Raise ->
         Fixed.visible o lunar jd (lat, lon) = Ok true)).
Proof.
  split; [|split].
  - repeat split; intros.
    + destruct (@evaluate_pairs_total _ (Pairs.visible o) false (revjul o)
                  max_gap_days (pairs_visible_total o) eclipses locs)
        as (log & Hlog).
      eexists. apply find_pairs_of_log. exact Hlog.
    + destruct (@evaluate_pairs_total _ (Grid.visible o) false (revjul o)
                  15 (grid_visible_total o) eclipses locs) as (log & Hlog).
      eexists. apply find_pairs_of_log. exact Hlog.
    + destruct (@evaluate_pairs_total _ (Fixed.visible o) true (revjul o)
                  15 (fixed_visible_total o) eclipses locs) as (log & Hlog).
      eexists. apply find_pairs_of_log. exact Hlog.
    + destruct (@evaluate_pairs_total _ (Final.visible o) true (revjul o)
                  15 (final_visible_total o) eclipses locs) as (log & Hlog).
      eexists. apply find_pairs_of_log. exact Hlog.
  - repeat split; intros; simpl.
    + unfold Pairs.check_solar_eclipse_visibility. rewrite H. reflexivity.
    + unfold Pairs.check_lunar_eclipse_visibility. rewrite H. reflexivity.
    + unfold Grid.check_solar_eclipse_visibility. rewrite H. reflexivity.
    + rewrite H. reflexivity.
    + rewrite H. reflexivity.
  - split; intros; simpl.
    + unfold Grid.check_lunar_eclipse_visibility. rewrite H. reflexivity.
    + rewrite H. reflexivity.
Qed.

(** C6 as stated fails.  Every query of the oracle raises; the lunar tests
    of find_eclipse_pairs_grid.py and find_pairs_fixed.py recover from the
    error by counting the eclipse as visible, and the search reports two
    lunar eclipses as a pair seen from the location. *)
Lemma lunar_error_counts_as_visible :
  calc_ut failing_oracle 0 SUN = Raise /\
  Grid.lunar_attempt failing_oracle 0 0 0 = Raise /\
  Grid.visible failing_oracle lunar 0 (0, 0) = Ok true /\
  (exists p,
     Grid.find_pairs failing_oracle [(lunar, 0); (lunar, 10)] [(0, 0)]
     = Ok [p]) /\
  lun_eclipse_how failing_oracle 0 0 0 = Raise /\
  Fixed.lunar_attempt failing_oracle 0 0 0 = Raise /\
  Fixed.visible failing_oracle lunar 0 (0, 0) = Ok true /\
  (exists p,
     Fixed.find_pairs failing_oracle [(lunar, 0); (lunar, 10)] [(0, 0)]
     = Ok [p]).
Proof.
  repeat split; try reflexivity; eexists; reflexivity.
Qed.

(** * Further properties of the scripts *)

(** ** The enumerator loops *)

Section WhileLoopSpacing.

Variable step : Q -> Py (option Q).
Variable k : kind.
Variable jd_end : Q.
Hypothesis step_advances : forall jd t, step jd = Ok (Some t) -> jd <= t.


End WhileLoopSpacing.





Section WhileLoopInvariant.

Variable step : Q -> Py (option Q).
Variable k : kind.
Variable jd_end : Q.
Variable accepted : Q -> Prop.
Hypothesis step_accepts : forall jd t, step jd = Ok (Some t) -> accepted t.

(** What holds of every time the body accepts holds of every event the loop
    appends. *)
Lemma while_loop_invariant (fuel : nat) :
  forall jd eclipses l,
    while_loop step k jd_end fuel jd eclipses = Some (Ok l) ->
    exists new,
      l = eclipses ++ new /\
      Forall (fun e => fst e = k /\ accepted (snd e)) new.
Proof using step_accepts.
  induction fuel as [|fuel IH]; intros jd eclipses l H; [discriminate|].
  simpl in H. destruct (Qlt_b jd jd_end).
  - destruct (step jd) as [[t|]|] eqn:Hstep.
    + apply IH in H. destruct H as (new & -> & Hall).
      exists ((k, t) :: new). split; [rewrite <- app_assoc; reflexivity|].
      constructor; [|exact Hall]. split; [reflexivity|]. simpl. eauto.
    + injection H as <-. exists []. rewrite app_nil_r. split; constructor.
    + discriminate.
  - injection H as <-. exists []. rewrite app_nil_r. split; constructor.
Qed.

End WhileLoopInvariant.

Lemma pairs_step_nonzero (when : Q -> Py pyval) (jd_end jd t : Q) :
  Pairs.step when jd_end jd = Ok (Some t) -> ~ t == 0.
Proof.
  unfold Pairs.step. intros H.
  apply bind_Ok in H as (next & _ & H).
  destruct (truthy next) eqn:Htruthy; [|discriminate].
  apply bind_Ok in H as (t' & Ht & H).
  destruct (Qlt_b t' jd_end); [|discriminate]. injection H as ->.
  apply py_float_Ok in Ht. subst next. simpl in Htruthy.
  apply negb_true_iff in Htruthy. intros Hz.
  apply Qeq_bool_iff in Hz. congruence.
Qed.

Lemma enumerate_appends_accepted_aux (o : Oracle) (k : kind)
    (jd_start jd_end : Q) (eclipses l : list event) (fuel : nat) :
  (Pairs.enumerate o jd_end k fuel jd_start eclipses = Some (Ok l) ->
   exists new,
     l = eclipses ++ new /\
     Forall (fun e => fst e = k /\ snd e < jd_end /\ ~ snd e == 0) new) /\
  (Final.enumerate o jd_end k fuel jd_start eclipses = Some (Ok l) ->
   exists new,
     l = eclipses ++ new /\
     Forall (fun e => fst e = k /\ snd e < jd_end) new).
Proof.
  split; intros H.
  - apply (@while_loop_invariant _ k jd_end
             (fun t => t < jd_end /\ ~ t == 0)) in H; [exact H|].
    intros jd t Hs. split.
    + apply pairs_step_Some in Hs. apply Hs.
    + eapply pairs_step_nonzero; eassumption.
  - apply (@while_loop_invariant _ k jd_end (fun t => t < jd_end)) in H;
      [exact H|].
    intros jd t Hs. apply final_step_Some in Hs. apply Hs.
Qed.

(** X5.  Whatever the oracle does (monotonic or not), every event an enumerator
    loop appends carries the kind of the loop and a time before the end of
    the range.  In find_eclipse_pairs.py its time is never 0: the test
    [if next_solar and ...] takes a reported Julian day 0 for "no eclipse"
    and ends the enumeration. *)
Theorem enumerate_appends_accepted (o : Oracle) (k : kind)
    (jd_start jd_end : Q) (eclipses l : list event) (fuel : nat) :
  (Pairs.enumerate o jd_end k fuel jd_start eclipses = Some (Ok l) ->
   exists new,
     l = eclipses ++ new /\
     Forall (fun e => fst e = k /\ snd e < jd_end /\ ~ snd e == 0) new) /\
  (Final.enumerate o jd_end k fuel jd_start eclipses = Some (Ok l) ->
   exists new,
     l = eclipses ++ new /\
     Forall (fun e => fst e = k /\ snd e < jd_end) new).
Proof.
  apply enumerate_appends_accepted_aux.
Qed.

(** A solar eclipse reported at Julian day 0, inside the range:
    find_eclipse_pairs.py ends the enumeration without it, find_final.py
    records it. *)
Example julian_day_zero :
  let o := with_solar_when (search_table [0; 20]) in
  Pairs.enumerate o 100 solar 5 (-10) [] = Some (Ok []) /\
  Final.enumerate o 100 solar 5 (-10) []
  = Some (Ok [(solar, 0); (solar, 20)]).
Proof.
  split; reflexivity.
Qed.

(** ** The merged list of events and the whole search *)

Lemma insert_by_time_perm (e : event) (l : list event) :
  Permutation (insert_by_time e l) (e :: l).
Proof.
  induction l as [|x l IH]; simpl; [reflexivity|].
  destruct (Qle_bool (snd e) (snd x)); [reflexivity|].
  rewrite IH. apply perm_swap.
Qed.

Lemma sort_by_time_perm (l : list event) : Permutation (sort_by_time l) l.
Proof.
  induction l as [|e l IH]; simpl; [reflexivity|].
  rewrite insert_by_time_perm. constructor. exact IH.
Qed.

(** What each loop appends, whatever the addition does to the cursor: events
    of the kind of the loop, before the end. *)
Lemma enumerate_in_appends_kind (plus : Q -> Q -> Q) (s : script)
    (o : Oracle) (k : kind) (jd_start jd_end : Q) (eclipses l : list event)
    (fuel : nat) :
  enumerate_in plus s o jd_end k fuel jd_start eclipses = Some (Ok l) ->
  exists new,
    l = eclipses ++ new /\
    Forall (fun e => fst e = k /\ snd e < jd_end) new.
Proof.
  intros H.
  apply (@while_loop_in_invariant plus _ k jd_end (fun t => t < jd_end)) in H;
    [exact H|].
  intros jd t Hs. apply loop_body_Some in Hs. apply Hs.
Qed.

(** X2.  Phase 1 of find_eclipse_pairs.py and of find_final.py, whatever the
    addition does to the cursor.  When it returns a list, the solar loop has
    returned a list [solars] from the empty list, the lunar loop has returned
    [solars ++ lunars] from [solars] (and returns [lunars] from the empty
    list), and the list handed to the pair search is [solars ++ lunars]
    sorted by time: it is in ascending order of time and holds the events of
    the two loops, each once, tagged with the kind of their loop and all
    before the end of the range. *)
Theorem collected_eclipses_sorted (plus : Q -> Q -> Q) (s : script)
    (o : Oracle) (jd_start jd_end : Q) (fuel : nat) (eclipses : list event) :
  collect_eclipses (enumerate_in plus s o jd_end) fuel jd_start
  = Some (Ok eclipses) ->
  exists solars lunars,
    enumerate_in plus s o jd_end solar fuel jd_start [] = Some (Ok solars) /\
    enumerate_in plus s o jd_end lunar fuel jd_start solars
    = Some (Ok (solars ++ lunars)) /\
    enumerate_in plus s o jd_end lunar fuel jd_start [] = Some (Ok lunars) /\
    eclipses = sort_by_time (solars ++ lunars) /\
    time_sorted eclipses /\
    Permutation eclipses (solars ++ lunars) /\
    Forall (fun e => fst e = solar /\ snd e < jd_end) solars /\
    Forall (fun e => fst e = lunar /\ snd e < jd_end) lunars.
Proof.
  unfold collect_eclipses. intros H.
  destruct (enumerate_in plus s o jd_end solar fuel jd_start [])
    as [[l1|]|] eqn:E1; try discriminate.
  destruct (enumerate_in plus s o jd_end lunar fuel jd_start l1)
    as [[l2|]|] eqn:E2; try discriminate.
  injection H as <-.
  destruct (enumerate_in_appends_kind _ _ _ _ _ _ _ _ E1)
    as (solars & Hl1 & Hs).
  destruct (enumerate_in_appends_kind _ _ _ _ _ _ _ _ E2)
    as (lunars & -> & Hl).
  simpl in Hl1. subst l1.
  exists solars, lunars.
  split; [reflexivity|]. split; [exact E2|].
  split; [apply (while_loop_in_prefix _ _ _ _ _ _ solars); exact E2|].
  split; [reflexivity|]. split; [apply sort_by_time_sorted|].
  split; [apply sort_by_time_perm|]. split; assumption.
Qed.

Lemma collected_eclipses_sorted_witness :
  collect_eclipses (enumerate_in double_add find_final_py sample_oracle 100)
    5 0
  = Some (Ok [(solar, 10); (lunar, 25); (solar, 40)]) /\
  exists solars lunars,
    enumerate_in double_add find_final_py sample_oracle 100 solar 5 0 []
    = Some (Ok solars) /\
    enumerate_in double_add find_final_py sample_oracle 100 lunar 5 0 solars
    = Some (Ok (solars ++ lunars)) /\
    enumerate_in double_add find_final_py sample_oracle 100 lunar 5 0 []
    = Some (Ok lunars) /\
    [(solar, 10); (lunar, 25); (solar, 40)] = sort_by_time (solars ++ lunars) /\
    time_sorted [(solar, 10); (lunar, 25); (solar, 40)] /\
    Permutation [(solar, 10); (lunar, 25); (solar, 40)] (solars ++ lunars) /\
    Forall (fun e => fst e = solar /\ snd e < 100) solars /\
    Forall (fun e => fst e = lunar /\ snd e < 100) lunars.
Proof.
  assert (H : collect_eclipses
                (enumerate_in double_add find_final_py sample_oracle 100) 5 0
              = Some (Ok [(solar, 10); (lunar, 25); (solar, 40)]))
    by (vm_compute; reflexivity).
  split; [exact H|].
  exact (@collected_eclipses_sorted double_add find_final_py sample_oracle
           0 100 5 _ H).
Defined.

(** Phase 1 ends when its two loops do. *)
Lemma collect_eclipses_terminates (s : script) (o : Oracle)
    (jd_start jd_end : Q) (fuel : nat) :
  monotonic (sol_eclipse_when_glob o) ->
  monotonic (lun_eclipse_when o) ->
  - (2 ^ 52) <= jd_start ->
  jd_end <= 2 ^ 52 ->
  (Z.max 0 (Qceiling (2 * (jd_end - jd_start))) < Z.of_nat fuel)%Z ->
  exists r,
    collect_eclipses (enumerate_in double_add s o jd_end) fuel jd_start
    = Some r.
Proof.
  intros Hsol Hlun Hlo Hhi Hfuel.
  assert (Hloop : forall k l,
             exists r,
               enumerate_in double_add s o jd_end k fuel jd_start l = Some r).
  { intros k l. unfold enumerate_in.
    apply (@while_loop_in_terminates double_add _ k jd_start jd_end);
      [| | |lra|exact Hfuel].
    - intros jd t H. apply loop_body_Some in H as ((result & Hr & Ht) & _).
      destruct k; [eapply Hsol | eapply Hlun]; eassumption.
    - intros jd t H. apply loop_body_Some in H as (_ & H). exact H.
    - intros t H1 H2. apply double_add_one_advances; lra. }
  unfold collect_eclipses.
  destruct (Hloop solar []) as ([l1|] & ->); [|eauto].
  destruct (Hloop lunar l1) as ([l2|] & ->); eauto.
Qed.

(** The list the scripts run the pair finder on is sorted, so every pair the
    whole search returns has a gap between 0 and the threshold. *)
Lemma pairs_search_in_gap_bounds (plus : Q -> Q -> Q) (o : Oracle)
    (test_locations : list Pairs.Loc) (jd_start jd_end max_gap_days : Q)
    (fuel : nat) (pairs : list (Pair Pairs.Loc)) :
  pairs_search_in plus o test_locations jd_start jd_end max_gap_days fuel
  = Some (Ok pairs) ->
  forall p,
    In p pairs ->
    gap_days p = jd2 p - jd1 p /\ 0 <= gap_days p /\
    gap_days p <= max_gap_days.
Proof.
  unfold pairs_search_in, collect_eclipses.
  destruct (enumerate_in plus find_eclipse_pairs_py o jd_end solar fuel
              jd_start [])
    as [[solars|]|]; try discriminate.
  destruct (enumerate_in plus find_eclipse_pairs_py o jd_end lunar fuel
              jd_start solars)
    as [[eclipses|]|]; try discriminate.
  intros H p Hp. injection H as H.
  unfold Pairs.find_pairs, find_pairs in H.
  apply bind_Ok in H as (log & Hlog & H). injection H as <-.
  destruct (@found_pairs_gap _ _ _ _ _ _ test_locations
              (sort_by_time_sorted eclipses) _ Hlog p Hp)
    as (H1 & H2 & H3 & _).
  auto.
Qed.

Lemma final_search_in_gap_bounds (plus : Q -> Q -> Q) (o : Oracle)
    (grid_locs : list Final.Loc) (jd_start jd_end : Q)
    (fuel : nat) (pairs : list (Pair Final.Loc)) :
  final_search_in plus o grid_locs jd_start jd_end fuel = Some (Ok pairs) ->
  forall p,
    In p pairs ->
    gap_days p = jd2 p - jd1 p /\ 0 <= gap_days p /\ gap_days p <= 15.
Proof.
  unfold final_search_in, collect_eclipses.
  destruct (enumerate_in plus find_final_py o jd_end solar fuel jd_start [])
    as [[solars|]|]; try discriminate.
  destruct (enumerate_in plus find_final_py o jd_end lunar fuel jd_start
              solars)
    as [[eclipses|]|]; try discriminate.
  intros H p Hp. injection H as H.
  unfold Final.find_pairs, find_pairs in H.
  apply bind_Ok in H as (log & Hlog & H). injection H as <-.
  destruct (@found_pairs_gap _ _ _ _ _ _ grid_locs
              (sort_by_time_sorted eclipses) _ Hlog p Hp)
    as (H1 & H2 & H3 & _).
  auto.
Qed.

(** X1.  The whole search, [search_eclipses_before_3000bc] of
    find_eclipse_pairs.py and the script find_final.py, from the two Julian
    days on, in double arithmetic.  For a range within 2^52 days of day 0,
    with monotonic solar and lunar searches and one more iteration than
    twice the number of days in the range, the search comes to an end; and
    whenever it returns pairs (the list need not be given sorted: the search
    sorts it), each pair records the gap between its two events, which is
    not negative and at most the threshold. *)
Theorem search_returns_bounded_gaps (o : Oracle)
    (test_locations : list Pairs.Loc) (grid_locs : list Final.Loc)
    (jd_start jd_end max_gap_days : Q) (fuel : nat) :
  monotonic (sol_eclipse_when_glob o) ->
  monotonic (lun_eclipse_when o) ->
  - (2 ^ 52) <= jd_start ->
  jd_end <= 2 ^ 52 ->
  (Z.max 0 (Qceiling (2 * (jd_end - jd_start))) < Z.of_nat fuel)%Z ->
  (exists r,
     pairs_search_in double_add o test_locations jd_start jd_end
       max_gap_days fuel = Some r /\
     forall pairs p,
       r = Ok pairs -> In p pairs ->
       gap_days p = jd2 p - jd1 p /\ 0 <= gap_days p /\
       gap_days p <= max_gap_days) /\
  (exists r,
     final_search_in double_add o grid_locs jd_start jd_end fuel = Some r /\
     forall pairs p,
       r = Ok pairs -> In p pairs ->
       gap_days p = jd2 p - jd1 p /\ 0 <= gap_days p /\ gap_days p <= 15).
Proof.
  intros Hsol Hlun Hlo Hhi Hfuel.
  destruct (@collect_eclipses_terminates find_eclipse_pairs_py o jd_start
              jd_end fuel Hsol Hlun Hlo Hhi Hfuel) as (r1 & H1).
  destruct (@collect_eclipses_terminates find_final_py o jd_start
              jd_end fuel Hsol Hlun Hlo Hhi Hfuel) as (r2 & H2).
  split.
  - assert (Hr : exists r,
               pairs_search_in double_add o test_locations jd_start jd_end
                 max_gap_days fuel = Some r).
    { unfold pairs_search_in. rewrite H1. destruct r1; eauto. }
    destruct Hr as (r & Hr). exists r. split; [exact Hr|].
    intros pairs p -> Hp.
    eapply pairs_search_in_gap_bounds; eassumption.
  - assert (Hr : exists r,
               final_search_in double_add o grid_locs jd_start jd_end fuel
               = Some r).
    { unfold final_search_in. rewrite H2. destruct r2; eauto. }
    destruct Hr as (r & Hr). exists r. split; [exact Hr|].
    intros pairs p -> Hp.
    eapply final_search_in_gap_bounds; eassumption.
Qed.

Lemma search_returns_bounded_gaps_witness :
  monotonic (sol_eclipse_when_glob sample_oracle) /\
  monotonic (lun_eclipse_when sample_oracle) /\
  - (2 ^ 52) <= 0 /\
  300 <= 2 ^ 52 /\
  (Z.max 0 (Qceiling (2 * (300 - 0))) < Z.of_nat 601)%Z /\
  exists r,
    final_search_in double_add sample_oracle sample_grid 0 300 601 = Some r /\
    forall pairs p,
      r = Ok pairs -> In p pairs ->
      gap_days p = jd2 p - jd1 p /\ 0 <= gap_days p /\ gap_days p <= 15.
Proof.
  assert (Hlo : - (2 ^ 52) <= 0) by (vm_compute; discriminate).
  assert (Hhi : 300 <= 2 ^ 52) by (vm_compute; discriminate).
  assert (Hfuel : (Z.max 0 (Qceiling (2 * (300 - 0))) < Z.of_nat 601)%Z)
    by (vm_compute; reflexivity).
  split; [apply search_table_monotonic|].
  split; [apply search_table_monotonic|].
  split; [exact Hlo|]. split; [exact Hhi|]. split; [exact Hfuel|].
  apply (proj2 (@search_returns_bounded_gaps sample_oracle sample_locations
                  sample_grid 0 300 15 601 (search_table_monotonic _)
                  (search_table_monotonic _) Hlo Hhi Hfuel)).
Defined.

(** ** The pair finder: what is evaluated, and in which order *)

Section PairSearchReach.

Variable L : Type.
Variable visible : kind -> Q -> L -> Py bool.
Variable first_match : bool.
Variable julian_to_date : Q -> pyval.
Variable max_gap_days : Q.

Local Abbreviation location_loop :=
  (location_loop visible first_match julian_to_date).
Local Abbreviation inner_loop :=
  (inner_loop visible first_match julian_to_date max_gap_days).
Local Abbreviation outer_loop :=
  (outer_loop visible first_match julian_to_date max_gap_days).
Local Abbreviation evaluate_pairs :=
  (evaluate_pairs visible first_match julian_to_date max_gap_days).

(** An inner index is reached when no gap up to it exceeds the threshold. *)
Lemma inner_loop_reaches (eclipses : list event) (locs : list L) (i : nat)
    (e1 : event) (j : nat) (js2 : list nat) :
  nth_error eclipses i = Some e1 ->
  forall js1 log,
    inner_loop eclipses locs i (js1 ++ j :: js2) = Ok log ->
    Forall (fun j' => exists e', nth_error eclipses j' = Some e' /\
                                 snd e' - snd e1 <= max_gap_days)
           (js1 ++ [j]) ->
    exists ev, In ev log /\ index_pair ev = (i, j).
Proof.
  intros Hi. induction js1 as [|j1 js1 IH]; intros log H Hall.
  - simpl in H, Hall. inversion Hall as [|? ? (e' & He' & Hgap) _]; subst.
    unfold item in H. rewrite Hi, He' in H. simpl in H.
    apply Qlt_b_false in Hgap. rewrite Hgap in H.
    apply bind_Ok in H as (here & _ & H).
    apply bind_Ok in H as (rest & _ & H). injection H as <-.
    eexists. split; [left; reflexivity | reflexivity].
  - simpl in H, Hall. inversion Hall as [|? ? (e' & He' & Hgap) Hall']; subst.
    unfold item in H. rewrite Hi, He' in H. simpl in H.
    apply Qlt_b_false in Hgap. rewrite Hgap in H.
    apply bind_Ok in H as (here & _ & H).
    apply bind_Ok in H as (rest & Hrest & H). injection H as <-.
    destruct (IH rest Hrest Hall') as (ev & Hin & Hev).
    exists ev. split; [right; exact Hin | exact Hev].
Qed.

Lemma outer_loop_reaches (eclipses : list event) (locs : list L)
    (i j : nat) (e1 e2 : event) :
  time_sorted eclipses ->
  nth_error eclipses i = Some e1 ->
  nth_error eclipses j = Some e2 ->
  (i < j)%nat ->
  snd e2 - snd e1 <= max_gap_days ->
  forall indices log,
    In i indices ->
    outer_loop eclipses locs indices = Ok log ->
    exists ev, In ev log /\ index_pair ev = (i, j).
Proof.
  intros Hsorted Hi Hj Hij Hgap.
  assert (Hlen : (j < length eclipses)%nat)
    by (apply nth_error_Some; congruence).
  induction indices as [|i' indices IH]; intros log Hin H; [contradiction|].
  simpl in H.
  apply bind_Ok in H as (here & Hhere & H).
  apply bind_Ok in H as (rest & Hrest & H). injection H as <-.
  destruct (Nat.eq_dec i' i) as [->|Hne].
  - replace (length eclipses - S i)%nat
      with ((j - S i) + S (length eclipses - S j))%nat in Hhere by lia.
    rewrite seq_app in Hhere. simpl in Hhere.
    replace (S (i + (j - S i)))%nat with j in Hhere by lia.
    assert (Hall : Forall (fun j' => exists e',
                               nth_error eclipses j' = Some e' /\
                               snd e' - snd e1 <= max_gap_days)
                          (seq (S i) (j - S i) ++ [j])).
    { apply Forall_forall. intros j' Hj'.
      assert (Hrange : (i < j' <= j)%nat).
      { apply in_app_or in Hj' as [Hj'|[<-|[]]]; [|lia].
        apply in_seq in Hj'. lia. }
      destruct (nth_error eclipses j') as [e'|] eqn:He';
        [|apply nth_error_None in He'; lia].
      exists e'. split; [reflexivity|].
      destruct (Nat.eq_dec j' j) as [->|Hlt].
      - rewrite Hj in He'. injection He' as <-. exact Hgap.
      - assert (Hle : snd e' <= snd e2).
        { apply (@time_sorted_nth eclipses Hsorted j' j);
            [lia | assumption | assumption]. }
        lra. }
    destruct (@inner_loop_reaches eclipses locs i e1 j _ Hi _ _ Hhere Hall)
      as (ev & Hev & Hidx).
    exists ev. split; [apply in_or_app; left; exact Hev | exact Hidx].
  - destruct Hin as [Heq|Hin]; [congruence|].
    destruct (IH rest Hin Hrest) as (ev & Hev & Hidx).
    exists ev. split; [apply in_or_app; right; exact Hev | exact Hidx].
Qed.

(** On a list in ascending order of time the [break] loses nothing: every
    index pair whose gap is within the threshold is evaluated. *)
Lemma evaluate_pairs_reaches (eclipses : list event) (locs : list L)
    (i j : nat) (e1 e2 : event) (log : list (Evaluated L)) :
  time_sorted eclipses ->
  nth_error eclipses i = Some e1 ->
  nth_error eclipses j = Some e2 ->
  (i < j)%nat ->
  snd e2 - snd e1 <= max_gap_days ->
  evaluate_pairs eclipses locs = Ok log ->
  exists ev, In ev log /\ index_pair ev = (i, j).
Proof.
  intros Hsorted Hi Hj Hij Hgap H.
  assert (Hlen : (j < length eclipses)%nat)
    by (apply nth_error_Some; congruence).
  eapply outer_loop_reaches; try eassumption.
  apply in_seq. lia.
Qed.

(** What an entry of the log found is what the location loop returns on the
    events at its two indices. *)
Lemma inner_loop_found (eclipses : list event) (locs : list L) (i : nat)
    (js : list nat) :
  forall log,
    inner_loop eclipses locs i js = Ok log ->
    Forall (fun ev => exists e1 e2,
                nth_error eclipses (first_index ev) = Some e1 /\
                nth_error eclipses (second_index ev) = Some e2 /\
                location_loop e1 e2 locs = Ok (found ev)) log.
Proof.
  induction js as [|j js IH]; intros log H; simpl in H.
  - injection H as <-. constructor.
  - apply bind_Ok in H as (e1 & He1 & H).
    apply bind_Ok in H as (e2 & He2 & H).
    destruct (Qlt_b max_gap_days (snd e2 - snd e1)).
    + injection H as <-. constructor.
    + apply bind_Ok in H as (here & Hhere & H).
      apply bind_Ok in H as (rest & Hrest & H). injection H as <-.
      unfold item in He1, He2.
      destruct (nth_error eclipses i) eqn:Hi; [|discriminate].
      destruct (nth_error eclipses j) eqn:Hj; [|discriminate].
      injection He1 as ->. injection He2 as ->.
      constructor; [|apply IH; exact Hrest].
      exists e1, e2. simpl. auto.
Qed.

Lemma outer_loop_found (eclipses : list event) (locs : list L)
    (indices : list nat) :
  forall log,
    outer_loop eclipses locs indices = Ok log ->
    Forall (fun ev => exists e1 e2,
                nth_error eclipses (first_index ev) = Some e1 /\
                nth_error eclipses (second_index ev) = Some e2 /\
                location_loop e1 e2 locs = Ok (found ev)) log.
Proof.
  induction indices as [|i indices IH]; intros log H; simpl in H.
  - injection H as <-. constructor.
  - apply bind_Ok in H as (here & Hhere & H).
    apply bind_Ok in H as (rest & Hrest & H). injection H as <-.
    apply Forall_app. split; [|apply IH; exact Hrest].
    eapply inner_loop_found; eassumption.
Qed.

End PairSearchReach.

(** X6.  C2's converse for find_eclipse_pairs.py and find_final.py.  On a list in
    ascending order of time the pruning loses nothing: every index pair
    i < j whose gap is within the threshold is evaluated. *)
Theorem sorted_search_skips_nothing (o : Oracle) (max_gap_days : Q)
    (eclipses : list event) (test_locations : list Pairs.Loc)
    (grid_locs : list Final.Loc) (i j : nat) (e1 e2 : event) :
  time_sorted eclipses ->
  nth_error eclipses i = Some e1 ->
  nth_error eclipses j = Some e2 ->
  (i < j)%nat ->
  (snd e2 - snd e1 <= max_gap_days ->
   exists log ev,
     Pairs.evaluate_pairs o max_gap_days eclipses test_locations = Ok log /\
     In ev log /\ index_pair ev = (i, j)) /\
  (snd e2 - snd e1 <= 15 ->
   exists log ev,
     Final.evaluate_pairs o eclipses grid_locs = Ok log /\
     In ev log /\ index_pair ev = (i, j)).
Proof.
  intros Hsorted Hi Hj Hij. split; intros Hgap.
  - destruct (@evaluate_pairs_total _ (Pairs.visible o) false (revjul o)
                max_gap_days (pairs_visible_total o) eclipses test_locations)
      as (log & Hlog).
    destruct (@evaluate_pairs_reaches _ _ _ _ _ _ _ _ _ _ _ _ Hsorted Hi Hj
                Hij Hgap Hlog) as (ev & Hev & Hidx).
    exists log, ev. auto.
  - destruct (@evaluate_pairs_total _ (Final.visible o) true (revjul o) 15
                (final_visible_total o) eclipses grid_locs)
      as (log & Hlog).
    destruct (@evaluate_pairs_reaches _ _ _ _ _ _ _ _ _ _ _ _ Hsorted Hi Hj
                Hij Hgap Hlog) as (ev & Hev & Hidx).
    exists log, ev. auto.
Qed.

Lemma sorted_search_skips_nothing_witness :
  time_sorted sample_events /\
  nth_error sample_events 1 = Some (lunar, 25) /\
  nth_error sample_events 2 = Some (solar, 40) /\
  (1 < 2)%nat /\
  40 - 25 <= 15 /\
  exists log ev,
    Final.evaluate_pairs sample_oracle sample_events sample_grid = Ok log /\
    In ev log /\ index_pair ev = (1, 2)%nat.
Proof.
  split; [exact sample_events_sorted|].
  split; [reflexivity|]. split; [reflexivity|]. split; [lia|].
  assert (Hgap : 40 - 25 <= 15) by (vm_compute; discriminate).
  split; [exact Hgap|].
  exact (proj2 (@sorted_search_skips_nothing sample_oracle 15 sample_events
                  sample_locations sample_grid 1 2 (lunar, 25) (solar, 40)
                  sample_events_sorted eq_refl eq_refl (Nat.lt_succ_diag_r 1))
           Hgap).
Defined.

(** The order matters.  In a list that is not sorted the [break] skips the
    index pair (0, 2), two events five days apart, and the index pair (1, 2)
    is reported with a negative gap. *)
Example unsorted_search_skips :
  exists log,
    Final.evaluate_pairs sample_oracle
      [(solar, 0); (lunar, 100); (solar, 5)] sample_grid = Ok log /\
    map (@index_pair Final.Loc) log = [(1, 2)%nat] /\
    map (@gap_days Final.Loc) (flat_map (@found Final.Loc) log)
    = [5 - 100].
Proof.
  eexists. split; [reflexivity|]. split; reflexivity.
Qed.

(** ** The pair finder: what is reported for an index pair *)

(** Exhaustive mode: one pair per location that sees both events, in the
    order of the grid. *)
Lemma location_loop_exhaustive {L : Type}
    (visible : kind -> Q -> L -> Py bool) (julian_to_date : Q -> pyval)
    (e1 e2 : event) (locs : list L) :
  (forall k jd loc, exists b, visible k jd loc = Ok b) ->
  location_loop visible false julian_to_date e1 e2 locs
  = Ok (map (fun loc => make_pair julian_to_date loc e1 e2)
            (filter (both_visible visible e1 e2) locs)).
Proof.
  intros Htotal. induction locs as [|loc locs IH]; simpl; [reflexivity|].
  unfold both_visible at 1.
  destruct (Htotal (fst e1) (snd e1) loc) as (v1 & ->).
  destruct (Htotal (fst e2) (snd e2) loc) as (v2 & ->).
  simpl. destruct (v1 && v2); rewrite IH; reflexivity.
Qed.

(** First-match mode: the first of these pairs only. *)
Lemma location_loop_first_match {L : Type}
    (visible : kind -> Q -> L -> Py bool) (julian_to_date : Q -> pyval)
    (e1 e2 : event) (locs : list L) :
  (forall k jd loc, exists b, visible k jd loc = Ok b) ->
  location_loop visible true julian_to_date e1 e2 locs
  = Ok (firstn 1 (map (fun loc => make_pair julian_to_date loc e1 e2)
                      (filter (both_visible visible e1 e2) locs))).
Proof.
  intros Htotal. induction locs as [|loc locs IH]; simpl; [reflexivity|].
  unfold both_visible at 1.
  destruct (Htotal (fst e1) (snd e1) loc) as (v1 & ->).
  destruct (Htotal (fst e2) (snd e2) loc) as (v2 & ->).
  simpl. destruct (v1 && v2); [reflexivity | exact IH].
Qed.

(** What the entries of a log found, in the two modes. *)
Lemma log_found_by_mode {L : Type} (visible : kind -> Q -> L -> Py bool)
    (first_match : bool) (julian_to_date : Q -> pyval) (max_gap_days : Q)
    (eclipses : list event) (locs : list L) :
  (forall k jd loc, exists b, visible k jd loc = Ok b) ->
  exists log,
    evaluate_pairs visible first_match julian_to_date max_gap_days
      eclipses locs = Ok log /\
    find_pairs visible first_match julian_to_date max_gap_days
      eclipses locs = Ok (flat_map (@found L) log) /\
    forall ev,
      In ev log ->
      exists e1 e2,
        nth_error eclipses (first_index ev) = Some e1 /\
        nth_error eclipses (second_index ev) = Some e2 /\
        let seen :=
          map (fun loc => make_pair julian_to_date loc e1 e2)
              (filter (both_visible visible e1 e2) locs) in
        found ev = if first_match then firstn 1 seen else seen.
Proof.
  intros Htotal.
  destruct (@evaluate_pairs_total _ visible first_match julian_to_date
              max_gap_days Htotal eclipses locs) as (log & Hlog).
  exists log. split; [exact Hlog|].
  split; [apply find_pairs_of_log; exact Hlog|].
  apply outer_loop_found in Hlog. rewrite Forall_forall in Hlog.
  intros ev Hev. destruct (Hlog ev Hev) as (e1 & e2 & H1 & H2 & Hloop).
  exists e1, e2. split; [exact H1|]. split; [exact H2|]. simpl.
  destruct first_match.
  - rewrite location_loop_first_match in Hloop by exact Htotal.
    injection Hloop as <-. reflexivity.
  - rewrite location_loop_exhaustive in Hloop by exact Htotal.
    injection Hloop as <-. reflexivity.
Qed.

(** X7.  The searches of find_eclipse_pairs.py and find_eclipse_pairs_grid.py are
    exhaustive: for every evaluated index pair they report one pair for each
    location from which both events are seen, in the order of the list of
    locations, and nothing else. *)
Theorem exhaustive_search_reports_every_location (o : Oracle)
    (max_gap_days : Q) (eclipses : list event)
    (test_locations : list Pairs.Loc) (grid : list Grid.Loc) :
  (exists log,
     Pairs.evaluate_pairs o max_gap_days eclipses test_locations = Ok log /\
     Pairs.find_pairs o max_gap_days eclipses test_locations
     = Ok (flat_map (@found Pairs.Loc) log) /\
     forall ev,
       In ev log ->
       exists e1 e2,
         nth_error eclipses (first_index ev) = Some e1 /\
         nth_error eclipses (second_index ev) = Some e2 /\
         found ev
         = map (fun loc => make_pair (revjul o) loc e1 e2)
               (filter (both_visible (Pairs.visible o) e1 e2)
                       test_locations)) /\
  (exists log,
     evaluate_pairs (Grid.visible o) false (revjul o) 15 eclipses grid
     = Ok log /\
     Grid.find_pairs o eclipses grid = Ok (flat_map (@found Grid.Loc) log) /\
     forall ev,
       In ev log ->
       exists e1 e2,
         nth_error eclipses (first_index ev) = Some e1 /\
         nth_error eclipses (second_index ev) = Some e2 /\
         found ev
         = map (fun loc => make_pair (revjul o) loc e1 e2)
               (filter (both_visible (Grid.visible o) e1 e2) grid)).
Proof.
  split.
  - exact (@log_found_by_mode _ (Pairs.visible o) false (revjul o)
             max_gap_days eclipses test_locations (pairs_visible_total o)).
  - exact (@log_found_by_mode _ (Grid.visible o) false (revjul o) 15
             eclipses grid (grid_visible_total o)).
Qed.

(** X8.  The searches of find_final.py and find_pairs_fixed.py stop at the first
    match: for every evaluated index pair they report the pair at the first
    location of the grid from which both events are seen, and no pair when
    there is no such location; so at most one pair per index pair. *)
Theorem first_match_search_reports_first_location (o : Oracle)
    (eclipses : list event) (grid_locs : list Final.Loc)
    (fixed_locs : list Fixed.Loc) :
  (exists log,
     Final.evaluate_pairs o eclipses grid_locs = Ok log /\
     Final.find_pairs o eclipses grid_locs
     = Ok (flat_map (@found Final.Loc) log) /\
     forall ev,
       In ev log ->
       (length (found ev) <= 1)%nat /\
       exists e1 e2,
         nth_error eclipses (first_index ev) = Some e1 /\
         nth_error eclipses (second_index ev) = Some e2 /\
         found ev
         = firstn 1 (map (fun loc => make_pair (revjul o) loc e1 e2)
                         (filter (both_visible (Final.visible o) e1 e2)
                                 grid_locs))) /\
  (exists log,
     evaluate_pairs (Fixed.visible o) true (revjul o) 15 eclipses fixed_locs
     = Ok log /\
     Fixed.find_pairs o eclipses fixed_locs
     = Ok (flat_map (@found Fixed.Loc) log) /\
     forall ev,
       In ev log ->
       (length (found ev) <= 1)%nat /\
       exists e1 e2,
         nth_error eclipses (first_index ev) = Some e1 /\
         nth_error eclipses (second_index ev) = Some e2 /\
         found ev
         = firstn 1 (map (fun loc => make_pair (revjul o) loc e1 e2)
                         (filter (both_visible (Fixed.visible o) e1 e2)
                                 fixed_locs))).
Proof.
  split.
  - destruct (@log_found_by_mode _ (Final.visible o) true (revjul o) 15
                eclipses grid_locs (final_visible_total o))
      as (log & H1 & H2 & H3).
    exists log. split; [exact H1|]. split; [exact H2|].
    intros ev Hev. destruct (H3 ev Hev) as (e1 & e2 & Hi & Hj & Hfound).
    cbv zeta in Hfound. split; [|eauto].
    rewrite Hfound. apply firstn_le_length.
  - destruct (@log_found_by_mode _ (Fixed.visible o) true (revjul o) 15
                eclipses fixed_locs (fixed_visible_total o))
      as (log & H1 & H2 & H3).
    exists log. split; [exact H1|]. split; [exact H2|].
    intros ev Hev. destruct (H3 ev Hev) as (e1 & e2 & Hi & Hj & Hfound).
    cbv zeta in Hfound. split; [|eauto].
    rewrite Hfound. apply firstn_le_length.
Qed.

(** ** The pair finder: the order of the log *)

Lemma StronglySorted_app_intro {A : Type} (R : A -> A -> Prop)
    (l1 l2 : list A) :
  StronglySorted R l1 ->
  StronglySorted R l2 ->
  (forall a b, In a l1 -> In b l2 -> R a b) ->
  StronglySorted R (l1 ++ l2).
Proof.
  induction 1 as [|a l1 Hl1 IH Ha]; intros H2 Hcross; simpl; [exact H2|].
  constructor.
  - apply IH; [exact H2|]. intros x y Hx Hy. apply Hcross; [right|]; assumption.
  - apply Forall_app. split; [exact Ha|].
    apply Forall_forall. intros y Hy. apply Hcross; [left; reflexivity|].
    exact Hy.
Qed.

Lemma seq_strongly_sorted (start len : nat) :
  StronglySorted lt (seq start len).
Proof.
  revert start. induction len as [|len IH]; intros start; simpl.
  - constructor.
  - constructor; [apply IH|].
    apply Forall_forall. intros x Hx. apply in_seq in Hx. lia.
Qed.

Section PairSearchOrder.

Variable L : Type.
Variable visible : kind -> Q -> L -> Py bool.
Variable first_match : bool.
Variable julian_to_date : Q -> pyval.
Variable max_gap_days : Q.

Local Abbreviation inner_loop :=
  (inner_loop visible first_match julian_to_date max_gap_days).
Local Abbreviation outer_loop :=
  (outer_loop visible first_match julian_to_date max_gap_days).

Lemma inner_loop_sorted (eclipses : list event) (locs : list L) (i : nat)
    (js : list nat) :
  StronglySorted lt js ->
  forall log,
    inner_loop eclipses locs i js = Ok log ->
    StronglySorted index_lt (map (@index_pair L) log).
Proof.
  induction 1 as [|j js Hjs IH Hj]; intros log H; simpl in H.
  - injection H as <-. constructor.
  - apply bind_Ok in H as (e1 & _ & H).
    apply bind_Ok in H as (e2 & _ & H).
    destruct (Qlt_b max_gap_days (snd e2 - snd e1)).
    + injection H as <-. constructor.
    + apply bind_Ok in H as (here & _ & H).
      apply bind_Ok in H as (rest & Hrest & H). injection H as <-.
      simpl. constructor; [apply IH; exact Hrest|].
      apply inner_loop_entries in Hrest.
      rewrite Forall_map. eapply Forall_impl; [|exact Hrest].
      simpl. intros ev (Hfirst & Hsecond & _).
      right. simpl. split; [symmetry; exact Hfirst|].
      rewrite Forall_forall in Hj. apply Hj. exact Hsecond.
Qed.

Lemma outer_loop_first_index (eclipses : list event) (locs : list L)
    (indices : list nat) :
  forall log,
    outer_loop eclipses locs indices = Ok log ->
    Forall (fun ev => In (first_index ev) indices) log.
Proof.
  induction indices as [|i indices IH]; intros log H; simpl in H.
  - injection H as <-. constructor.
  - apply bind_Ok in H as (here & Hhere & H).
    apply bind_Ok in H as (rest & Hrest & H). injection H as <-.
    apply Forall_app. split.
    + apply inner_loop_entries in Hhere.
      eapply Forall_impl; [|exact Hhere].
      simpl. intros ev (Hfirst & _). left. symmetry. exact Hfirst.
    + eapply Forall_impl; [|apply IH; exact Hrest].
      simpl. intros ev Hin. right. exact Hin.
Qed.

Lemma outer_loop_sorted (eclipses : list event) (locs : list L)
    (indices : list nat) :
  StronglySorted lt indices ->
  forall log,
    outer_loop eclipses locs indices = Ok log ->
    StronglySorted index_lt (map (@index_pair L) log).
Proof.
  induction 1 as [|i indices Hind IH Hi]; intros log H; simpl in H.
  - injection H as <-. constructor.
  - apply bind_Ok in H as (here & Hhere & H).
    apply bind_Ok in H as (rest & Hrest & H). injection H as <-.
    rewrite map_app. apply StronglySorted_app_intro.
    + eapply inner_loop_sorted; [apply seq_strongly_sorted | exact Hhere].
    + apply IH. exact Hrest.
    + intros a b Ha Hb.
      apply in_map_iff in Ha as (eva & <- & Ha).
      apply in_map_iff in Hb as (evb & <- & Hb).
      apply inner_loop_entries in Hhere. rewrite Forall_forall in Hhere.
      destruct (Hhere eva Ha) as (Hfirst & _).
      apply outer_loop_first_index in Hrest. rewrite Forall_forall in Hrest.
      left. simpl. rewrite Hfirst.
      rewrite Forall_forall in Hi. apply Hi. apply Hrest. exact Hb.
Qed.

End PairSearchOrder.

(** X9.  The searches of find_eclipse_pairs.py and find_final.py visit index
    pairs in ascending order, first index first: the log is strictly
    increasing, so no pair of events is evaluated twice, and every entry is
    an index pair i < j of the list. *)
Theorem search_visits_in_order (o : Oracle) (max_gap_days : Q)
    (eclipses : list event) (test_locations : list Pairs.Loc)
    (grid_locs : list Final.Loc) :
  (exists log,
     Pairs.evaluate_pairs o max_gap_days eclipses test_locations = Ok log /\
     StronglySorted index_lt (map (@index_pair Pairs.Loc) log) /\
     NoDup (map (@index_pair Pairs.Loc) log) /\
     forall ev,
       In ev log ->
       (first_index ev < second_index ev < length eclipses)%nat) /\
  (exists log,
     Final.evaluate_pairs o eclipses grid_locs = Ok log /\
     StronglySorted index_lt (map (@index_pair Final.Loc) log) /\
     NoDup (map (@index_pair Final.Loc) log) /\
     forall ev,
       In ev log ->
       (first_index ev < second_index ev < length eclipses)%nat).
Proof.
  assert (Hnodup : forall l : list (nat * nat),
             StronglySorted index_lt l -> NoDup l).
  { induction 1 as [|a l Hl IH Ha]; constructor; [|exact IH].
    intros Hin. rewrite Forall_forall in Ha. specialize (Ha a Hin).
    destruct Ha as [Ha|(_ & Ha)]; lia. }
  assert (Hrange : forall (L : Type) visible fm julian mx locs
                          (log : list (Evaluated L)),
             evaluate_pairs visible fm julian mx eclipses locs = Ok log ->
             forall ev, In ev log ->
               (first_index ev < second_index ev < length eclipses)%nat).
  { intros L visible fm julian mx locs log Hlog ev Hev.
    apply outer_loop_entries in Hlog. rewrite Forall_forall in Hlog.
    destruct (Hlog ev Hev) as (Hlt & e1 & e2 & _ & H2 & _).
    split; [exact Hlt|]. apply nth_error_Some. congruence. }
  split.
  - destruct (@evaluate_pairs_total _ (Pairs.visible o) false (revjul o)
                max_gap_days (pairs_visible_total o) eclipses test_locations)
      as (log & Hlog).
    exists log. split; [exact Hlog|].
    assert (Hs : StronglySorted index_lt (map (@index_pair Pairs.Loc) log)).
    { eapply outer_loop_sorted; [apply seq_strongly_sorted | exact Hlog]. }
    split; [exact Hs|]. split; [apply Hnodup; exact Hs|].
    eapply Hrange. exact Hlog.
  - destruct (@evaluate_pairs_total _ (Final.visible o) true (revjul o) 15
                (final_visible_total o) eclipses grid_locs)
      as (log & Hlog).
    exists log. split; [exact Hlog|].
    assert (Hs : StronglySorted index_lt (map (@index_pair Final.Loc) log)).
    { eapply outer_loop_sorted; [apply seq_strongly_sorted | exact Hlog]. }
    split; [exact Hs|]. split; [apply Hnodup; exact Hs|].
    eapply Hrange. exact Hlog.
Qed.

(** ** The hour-angle heuristic of the lunar checks *)

(** [x % 360] lies between 0 and 360. *)
Lemma py_mod_range (x : Q) : 0 <= py_mod x 360 /\ py_mod x 360 <= 360.
Proof.
  unfold py_mod.
  assert (H1 := Qfloor_le (x / 360)). assert (H2 := Qlt_floor (x / 360)).
  rewrite inject_Z_plus in H2. change (inject_Z 1) with 1 in H2.
  assert (Hx : x == 360 * (x / 360)) by (field; discriminate).
  set (f := inject_Z (Qfloor (x / 360))) in *.
  split; lra.
Qed.

(** "Night" is an hour angle strictly between [c] and [360 - c]. *)
Lemma night_band (c h : Q) :
  0 <= c -> c <= 180 -> 0 <= h -> h <= 360 ->
  (Qlt_b c (Qabs (if Qlt_b 180 h then h - 360 else h)) = true <->
   c < h /\ h < 360 - c).
Proof.
  intros Hc0 Hc Hh0 Hh. rewrite Qlt_b_true.
  destruct (Qlt_b 180 h) eqn:E.
  - apply Qlt_b_true in E.
    rewrite (Qabs_neg (h - 360)) by lra. split; intros; [split|]; lra.
  - apply Qlt_b_false in E.
    rewrite (Qabs_pos h) by lra. split; intros; [split|]; lra.
Qed.

(** What the statements inside [try] of the lunar check of
    find_eclipse_pairs.py compute. *)
Lemma pairs_lunar_attempt_Ok (o : Oracle) (jd lat lon : Q) (b : bool) :
  Pairs.lunar_attempt o jd lat lon = Ok b ->
  exists sun_result s sun_ra,
    calc_ut o jd SUN = Ok sun_result /\
    Pairs.lon_of sun_result = Ok (PNum sun_ra) /\
    sidtime o jd = Ok (PNum s) /\
    b = Qlt_b 60 (Qabs (if Qlt_b 180 (py_mod (s * 15 + lon - sun_ra) 360)
                        then py_mod (s * 15 + lon - sun_ra) 360 - 360
                        else py_mod (s * 15 + lon - sun_ra) 360)).
Proof.
  unfold Pairs.lunar_attempt. intros H.
  apply bind_Ok in H as (sun_result & Hsun & H).
  apply bind_Ok in H as (moon_result & Hmoon & H).
  apply bind_Ok in H as (sun_lon & Hsl & H).
  apply bind_Ok in H as (sun_lat & _ & H).
  apply bind_Ok in H as (moon_lon & _ & H).
  apply bind_Ok in H as (moon_lat & _ & H).
  apply bind_Ok in H as (ecl_nut & _ & H).
  apply bind_Ok in H as (e1 & _ & H).
  apply bind_Ok in H as (e12 & _ & H).
  apply bind_Ok in H as (eps_nutlo & _ & H).
  apply bind_Ok in H as (sid & Hsid & H).
  apply bind_Ok in H as (s & Hs & H).
  apply bind_Ok in H as (sun_ra & Hra & H).
  injection H as H.
  apply py_float_Ok in Hs, Hra. subst sid sun_lon.
  exists sun_result, s, sun_ra. repeat split; try assumption.
  symmetry. exact H.
Qed.

(** The same for find_eclipse_pairs_grid.py. *)
Lemma grid_lunar_attempt_Ok (o : Oracle) (jd lat lon : Q) (b : bool) :
  Grid.lunar_attempt o jd lat lon = Ok b ->
  exists sun_result s1 s sun_lon,
    calc_ut o jd SUN = Ok sun_result /\
    subscript sun_result 1 = Ok s1 /\
    subscript s1 0 = Ok (PNum sun_lon) /\
    sidtime o jd = Ok (PNum s) /\
    b = Qlt_b 45 (Qabs (if Qlt_b 180 (py_mod (s * 15 + lon - sun_lon) 360)
                        then py_mod (s * 15 + lon - sun_lon) 360 - 360
                        else py_mod (s * 15 + lon - sun_lon) 360)).
Proof.
  unfold Grid.lunar_attempt. intros H.
  apply bind_Ok in H as (sun_result & Hsun & H).
  apply bind_Ok in H as (sid & Hsid & H).
  apply bind_Ok in H as (s & Hs & H).
  apply bind_Ok in H as (s1 & Hs1 & H).
  apply bind_Ok in H as (sun_lon & Hsl & H).
  apply bind_Ok in H as (sl & Hsl' & H).
  injection H as H.
  apply py_float_Ok in Hs, Hsl'. subst sid sun_lon.
  exists sun_result, s1, s, sl. repeat split; try assumption.
  symmetry. exact H.
Qed.

(** X11.  The hour-angle heuristic as a band of hour angles.  When the statements
    inside [try] come to an end, the lunar check of find_eclipse_pairs.py
    says "visible" exactly when the hour angle of the Sun, as [% 360] gives
    it, lies strictly between 60 and 300 degrees, and that of
    find_eclipse_pairs_grid.py exactly when it lies strictly between 45 and
    315 degrees. *)
Theorem lunar_check_hour_angle_band (o : Oracle) (jd lat lon : Q) :
  (forall b,
     Pairs.lunar_attempt o jd lat lon = Ok b ->
     exists sun_result s sun_ra,
       calc_ut o jd SUN = Ok sun_result /\
       Pairs.lon_of sun_result = Ok (PNum sun_ra) /\
       sidtime o jd = Ok (PNum s) /\
       let h := py_mod (s * 15 + lon - sun_ra) 360 in
       (Pairs.check_lunar_eclipse_visibility o jd lat lon = Ok true <->
        60 < h /\ h < 300)) /\
  (forall b,
     Grid.lunar_attempt o jd lat lon = Ok b ->
     exists sun_result s1 s sun_lon,
       calc_ut o jd SUN = Ok sun_result /\
       subscript sun_result 1 = Ok s1 /\
       subscript s1 0 = Ok (PNum sun_lon) /\
       sidtime o jd = Ok (PNum s) /\
       let h := py_mod (s * 15 + lon - sun_lon) 360 in
       (Grid.check_lunar_eclipse_visibility o jd lat lon = Ok true <->
        45 < h /\ h < 315)).
Proof.
  split; intros b H.
  - destruct (pairs_lunar_attempt_Ok _ _ _ _ H)
      as (sun_result & s & sun_ra & H1 & H2 & H3 & Hb).
    exists sun_result, s, sun_ra. repeat (split; [assumption|]).
    cbv zeta. destruct (py_mod_range (s * 15 + lon - sun_ra)) as (Hlo & Hhi).
    unfold Pairs.check_lunar_eclipse_visibility. rewrite H. simpl.
    assert (Hband := night_band (c := 60) (h := py_mod (s * 15 + lon - sun_ra)
                                                    360)).
    rewrite <- Hb in Hband.
    assert (H300 : 360 - 60 == 300) by reflexivity.
    split.
    + intros Hv. injection Hv as ->.
      destruct Hband as (Hband & _); try lra.
    + intros (Ha & Hc). f_equal. apply Hband; lra.
  - destruct (grid_lunar_attempt_Ok _ _ _ _ H)
      as (sun_result & s1 & s & sun_lon & H1 & H2 & H3 & H4 & Hb).
    exists sun_result, s1, s, sun_lon. repeat (split; [assumption|]).
    cbv zeta. destruct (py_mod_range (s * 15 + lon - sun_lon)) as (Hlo & Hhi).
    unfold Grid.check_lunar_eclipse_visibility. rewrite H. simpl.
    assert (Hband := night_band (c := 45)
                       (h := py_mod (s * 15 + lon - sun_lon) 360)).
    rewrite <- Hb in Hband.
    split.
    + intros Hv. injection Hv as ->.
      destruct Hband as (Hband & _); try lra.
    + intros (Ha & Hc). f_equal. apply Hband; lra.
Qed.

(** ** How the visibility tests of the scripts compare *)

(** X12.  find_eclipse_pairs_grid.py announces a "more permissive" lunar check.
    When [calc_ut] answers with something other than a number in first
    place (so that both scripts read the solar longitude at [[1][0]]), every
    place from which find_eclipse_pairs.py sees a lunar eclipse sees it in
    find_eclipse_pairs_grid.py too. *)
Theorem grid_lunar_check_more_permissive (o : Oracle) (jd lat lon : Q) :
  (forall sun_result r0,
     calc_ut o jd SUN = Ok sun_result ->
     subscript sun_result 0 = Ok r0 -> is_number r0 = false) ->
  Pairs.check_lunar_eclipse_visibility o jd lat lon = Ok true ->
  Grid.check_lunar_eclipse_visibility o jd lat lon = Ok true.
Proof.
  intros Hformat H.
  unfold Pairs.check_lunar_eclipse_visibility, try_except in H.
  destruct (Pairs.lunar_attempt o jd lat lon) as [b|] eqn:Hatt;
    [|discriminate].
  injection H as ->.
  destruct (pairs_lunar_attempt_Ok _ _ _ _ Hatt)
    as (sun_result & s & sun_ra & Hsun & Hlon & Hsid & Hb).
  unfold Pairs.lon_of in Hlon.
  apply bind_Ok in Hlon as (r0 & Hr0 & Hlon).
  rewrite (Hformat sun_result r0 Hsun Hr0) in Hlon.
  apply bind_Ok in Hlon as (s1 & Hs1 & Hs10).
  unfold Grid.check_lunar_eclipse_visibility, Grid.lunar_attempt.
  rewrite Hsun, Hsid. simpl. rewrite Hs1. simpl. rewrite Hs10. simpl.
  f_equal. symmetry in Hb. apply Qlt_b_true in Hb. apply Qlt_b_true. lra.
Qed.

Lemma grid_lunar_check_more_permissive_witness :
  (forall sun_result r0,
     calc_ut data_first_oracle 0 SUN = Ok sun_result ->
     subscript sun_result 0 = Ok r0 -> is_number r0 = false) /\
  Pairs.check_lunar_eclipse_visibility data_first_oracle 0 0 0 = Ok true /\
  Grid.check_lunar_eclipse_visibility data_first_oracle 0 0 0 = Ok true.
Proof.
  assert (Hformat : forall sun_result r0,
             calc_ut data_first_oracle 0 SUN = Ok sun_result ->
             subscript sun_result 0 = Ok r0 -> is_number r0 = false).
  { intros sun_result r0 H1 H2. simpl in H1. injection H1 as <-.
    simpl in H2. injection H2 as <-. reflexivity. }
  split; [exact Hformat|]. split; [reflexivity|].
  exact (@grid_lunar_check_more_permissive data_first_oracle 0 0 0 Hformat
           eq_refl).
Defined.

(** X14.  The lunar check of find_pairs_fixed.py says "not visible" in two cases
    only: [lun_eclipse_how] returns a false value (None, 0, an empty tuple)
    or a tuple of one item.  In every other case, whatever the flag and the
    altitude, and also when the call raises, it says "visible". *)
Theorem fixed_lunar_not_visible_iff (o : Oracle) (jd lat lon : Q) :
  (Fixed.visible o lunar jd (lat, lon) = Ok false <->
   exists attr,
     lun_eclipse_how o jd lon lat = Ok attr /\
     (truthy attr = false \/ exists x, attr = PTuple [x])) /\
  (Fixed.visible o lunar jd (lat, lon) = Ok true \/
   Fixed.visible o lunar jd (lat, lon) = Ok false).
Proof.
  simpl. unfold Fixed.lunar_attempt.
  destruct (lun_eclipse_how o jd lon lat) as [attr|]; simpl.
  - destruct attr as [|q|items]; simpl.
    + split; [|right; reflexivity].
      split; [intros _; exists PNone; auto | reflexivity].
    + destruct (Qeq_bool q 0) eqn:Hq; simpl.
      * split; [|right; reflexivity].
        split; [intros _; exists (PNum q); simpl; rewrite Hq; auto
               | reflexivity].
      * split; [|left; reflexivity].
        split; [discriminate|].
        intros (attr & Heq & [Hfalse | (x & Hx)]).
        -- injection Heq as <-. simpl in Hfalse. rewrite Hq in Hfalse.
           discriminate.
        -- injection Heq as <-. discriminate.
    + destruct items as [|x [|y items]]; simpl.
      * split; [|right; reflexivity].
        split; [intros _; exists (PTuple []); auto | reflexivity].
      * split; [|right; reflexivity].
        split; [intros _; exists (PTuple [x]); eauto | reflexivity].
      * split; [|left; reflexivity].
        split; [discriminate|].
        intros (attr & Heq & [Hfalse | (z & Hz)]).
        -- injection Heq as <-. discriminate.
        -- injection Heq as <-. discriminate.
  - split; [|left; reflexivity].
    split; [discriminate|]. intros (attr & Heq & _). discriminate.
Qed.

(** ** The gap bounds in the other two scripts *)

(** X15.  The pair searches of find_eclipse_pairs_grid.py and find_pairs_fixed.py
    keep the gap bounds too: on a list in ascending order of time they
    return, and every pair they report is made of the events at two indices
    i < j and records their gap, between 0 and 15 days. *)
Theorem grid_and_fixed_gap_bounds (o : Oracle) (eclipses : list event)
    (test_locations : list Grid.Loc) (grid_locs : list Fixed.Loc) :
  time_sorted eclipses ->
  (exists pairs,
     Grid.find_pairs o eclipses test_locations = Ok pairs /\
     forall p,
       In p pairs ->
       gap_days p = jd2 p - jd1 p /\ 0 <= gap_days p /\ gap_days p <= 15 /\
       exists i j,
         (i < j)%nat /\
         nth_error eclipses i = Some (type1 p, jd1 p) /\
         nth_error eclipses j = Some (type2 p, jd2 p)) /\
  (exists pairs,
     Fixed.find_pairs o eclipses grid_locs = Ok pairs /\
     forall p,
       In p pairs ->
       gap_days p = jd2 p - jd1 p /\ 0 <= gap_days p /\ gap_days p <= 15 /\
       exists i j,
         (i < j)%nat /\
         nth_error eclipses i = Some (type1 p, jd1 p) /\
         nth_error eclipses j = Some (type2 p, jd2 p)).
Proof.
  intros Hsorted. split.
  - destruct (@evaluate_pairs_total _ (Grid.visible o) false (revjul o) 15
                (grid_visible_total o) eclipses test_locations)
      as (log & Hlog).
    exists (flat_map (@found Grid.Loc) log).
    split; [apply find_pairs_of_log; exact Hlog|].
    eapply found_pairs_gap; eassumption.
  - destruct (@evaluate_pairs_total _ (Fixed.visible o) true (revjul o) 15
                (fixed_visible_total o) eclipses grid_locs)
      as (log & Hlog).
    exists (flat_map (@found Fixed.Loc) log).
    split; [apply find_pairs_of_log; exact Hlog|].
    eapply found_pairs_gap; eassumption.
Qed.

Lemma grid_and_fixed_gap_bounds_witness :
  time_sorted sample_events /\
  exists pairs,
    Fixed.find_pairs sample_oracle sample_events sample_grid = Ok pairs /\
    length pairs = 3%nat /\
    forall p,
      In p pairs ->
      gap_days p = jd2 p - jd1 p /\ 0 <= gap_days p /\ gap_days p <= 15 /\
      exists i j,
        (i < j)%nat /\
        nth_error sample_events i = Some (type1 p, jd1 p) /\
        nth_error sample_events j = Some (type2 p, jd2 p).
Proof.
  split; [exact sample_events_sorted|].
  destruct (proj2 (@grid_and_fixed_gap_bounds sample_oracle sample_events
                     sample_grid sample_grid sample_events_sorted))
    as (pairs & Hpairs & Hgap).
  exists pairs. split; [exact Hpairs|]. split; [|exact Hgap].
  vm_compute in Hpairs. injection Hpairs as <-. reflexivity.
Defined.
